(** * The YouTube video summarizer: a shallow embedding of [main.py]

    The program is one Python module.  Its functions are embedded here as
    Rocq functions over an explicit description of what the module touches:
    the state file [processed_videos.txt], the [summaries] directory, the
    standard output, the process environment and the three remote services
    (feed parser, transcript API, generative model).

    Conventions of the embedding.
    - A Python [str] is a list of Unicode code points ([N]).
    - A Python [set] of strings is a [gset (list N)].
    - A file is opened in text mode with the default universal-newline
      translation and the encoding UTF-8.  A regular file is either text,
      held as such, or bytes that do not decode; a text that holds a
      surrogate cannot be encoded.  Writing does not rewrite line feeds
      (the POSIX [os.linesep]).
    - The path of the state file holds nothing, a directory or a regular
      file; the working directory can always be searched, so that
      [is_file()] answers.  Of the errors of the system only those of
      permissions and of the kind of a path are modelled, not a full disk
      or a failing device.
    - Exceptions are the [Raised] outcome of a state-and-error monad; the
      effects performed before an exception stay in the state. *)

From Stdlib Require Import NArith String Ascii DecimalString.
From stdpp Require Import base option list sets gmap.

Local Open Scope N_scope.
#[local] Set Warnings "-clear-no-such-hyp".

(** ** Text *)

Abbreviation str := (list N).

(** A literal of the source, character by character. *)
Definition py (s : string) : str :=
  N_of_ascii <$> list_ascii_of_string s.

Definition LF : N := 10.
Definition CR : N := 13.

(** [Py_UNICODE_ISSPACE], the test behind [str.strip()] without argument. *)
Definition isspace (c : N) : bool :=
  ((9 <=? c) && (c <=? 13)) || ((28 <=? c) && (c <=? 32))
  || (c =? 133) || (c =? 160) || (c =? 5760)
  || ((8192 <=? c) && (c <=? 8202))
  || (c =? 8232) || (c =? 8233) || (c =? 8239) || (c =? 8287)
  || (c =? 12288).

Fixpoint lstrip (s : str) : str :=
  match s with
  | [] => []
  | c :: r => if isspace c then lstrip r else s
  end.

Definition rstrip (s : str) : str := reverse (lstrip (reverse s)).

(** [s.strip()] *)
Definition strip (s : str) : str := rstrip (lstrip s).

(** Universal newlines on input: a carriage return followed by a line feed,
    and a lone carriage return, are both read as one line feed. *)
Fixpoint translate_newlines (s : str) : str :=
  match s with
  | [] => []
  | c :: r =>
      if c =? CR then
        match r with
        | d :: r' => if d =? LF then LF :: translate_newlines r'
                     else LF :: translate_newlines r
        | [] => [LF]
        end
      else c :: translate_newlines r
  end.

(** The lines a text-mode file yields when iterated: split after every
    line feed, the line feed kept at the end of its line. *)
Fixpoint readlines (s : str) : list str :=
  match s with
  | [] => []
  | c :: r =>
      if c =? LF then [LF] :: readlines r
      else match readlines r with
           | [] => [[c]]
           | l :: ls => (c :: l) :: ls
           end
  end.

(** [for line in f] on a file whose text is [s]. *)
Definition file_lines (s : str) : list str := readlines (translate_newlines s).

(** [sep.join(items)] *)
Fixpoint join (sep : str) (items : list str) : str :=
  match items with
  | [] => []
  | [x] => x
  | x :: r => x ++ sep ++ join sep r
  end.

(** ** [sanitize_filename] *)

(** The character class of the pattern given to [re.sub]: backslash,
    slash, star, question mark, colon, double quote, less, greater, bar. *)
Definition forbidden_chars : list N := [92; 47; 42; 63; 58; 34; 60; 62; 124].

Definition forbidden (c : N) : bool := bool_decide (c ∈ forbidden_chars).

(** [re.sub(pattern, repl, s)] for a pattern that is one character class:
    the text is scanned from the left, each matching character is replaced
    by [repl], every other character is copied. *)
Fixpoint re_sub_class (cls : N -> bool) (repl : str) (s : str) : str :=
  match s with
  | [] => []
  | c :: r => if cls c then repl ++ re_sub_class cls repl r
              else c :: re_sub_class cls repl r
  end.

Definition sanitize_filename (name : str) : str :=
  re_sub_class forbidden [] name.

(** ** The world of the program *)

(** The two paths of the settings, as text. *)
Definition PROCESSED_VIDEOS_FILE : str := py "processed_videos.txt".
Definition SUMMARIES_DIR : str := py "summaries".

(** What [PROCESSED_VIDEOS_FILE] is on disk.  A regular file is text, or
    bytes that are not valid in the encoding: reading those raises, and
    [decode_error t] is the text of the error once the text [t] has been
    appended to them. *)
Inductive node :=
| Missing (creatable : bool)                (* nothing there; whether the
                                               directory can be written *)
| Directory
| File (readable writable : bool) (content : str)
| Garbled (readable writable : bool) (decode_error : str -> str).

(** What [SUMMARIES_DIR] is on disk. *)
Inductive dir_node :=
| NoDir (creatable : bool)                  (* nothing there *)
| NotDir                                    (* a file or the like *)
| Dir (files : gmap str str).               (* file name to content *)

(** The exceptions, each with the text that [str(e)] gives. *)
Inductive exn :=
| ValueError (msg : str)
| PermissionError (msg : str)
| IsADirectoryError (msg : str)
| FileExistsError (msg : str)
| UnicodeDecodeError (msg : str)
| UnicodeEncodeError (msg : str)
| OSError (msg : str)                       (* another error of the system *)
| ServiceError (msg : str).                 (* raised by a remote service *)

(** [str(e)], as an f-string prints an exception. *)
Definition exn_text (e : exn) : str :=
  match e with
  | ValueError m | PermissionError m | IsADirectoryError m
  | FileExistsError m | UnicodeDecodeError m | UnicodeEncodeError m
  | OSError m | ServiceError m => m
  end.

(** The text of an error of the system on a path. *)
Definition errno_text (errno what path : str) : str :=
  py "[Errno " ++ errno ++ py "] " ++ what ++ py ": '" ++ path ++ py "'".

Definition permission_denied (path : str) : exn :=
  PermissionError (errno_text (py "13") (py "Permission denied") path).

Definition is_a_directory (path : str) : exn :=
  IsADirectoryError (errno_text (py "21") (py "Is a directory") path).

Definition file_exists (path : str) : exn :=
  FileExistsError (errno_text (py "17") (py "File exists") path).

(** A surrogate code point; UTF-8 has no bytes for one. *)
Definition is_surrogate (c : N) : bool := (55296 <=? c) && (c <=? 57343).

Definition hex_digit (d : N) : N := if d <? 10 then 48 + d else 87 + d.

(** The escape of a character of the basic plane: backslash, u, four
    digits. *)
Definition escape_u (c : N) : str :=
  [92; 117; hex_digit (c / 4096 mod 16); hex_digit (c / 256 mod 16);
   hex_digit (c / 16 mod 16); hex_digit (c mod 16)].

Definition decimal (n : N) : str := py (NilZero.string_of_uint (N.to_uint n)).

Fixpoint surrogate_run (t : str) : N :=
  match t with
  | c :: r => if is_surrogate c then 1 + surrogate_run r else 0
  | [] => 0
  end.

(** The error of the encoder on the text [t], read from position [pos] of
    what is written: it names the first surrogate, or the run of
    surrogates that begins there. *)
Fixpoint encode_error_from (pos : N) (t : str) : option exn :=
  match t with
  | [] => None
  | c :: r =>
      if is_surrogate c then
        Some (UnicodeEncodeError
                (match surrogate_run r with
                 | 0 => py "'utf-8' codec can't encode character '"
                        ++ escape_u c ++ py "' in position " ++ decimal pos
                 | n => py "'utf-8' codec can't encode characters in position "
                        ++ decimal pos ++ py "-" ++ decimal (pos + n)
                 end ++ py ": surrogates not allowed"))
      else encode_error_from (pos + 1) r
  end.

Definition encode_error (t : str) : option exn := encode_error_from 0 t.

Inductive outcome (A : Type) :=
| Returned (a : A)
| Raised (e : exn).
Arguments Returned {A} a.
Arguments Raised {A} e.

(** An entry of a parsed feed: the video identifier and the title. *)
Record entry := Entry { entry_id : str; entry_title : str }.

(** The remote services and the disk under [SUMMARIES_DIR], fixed for the
    time of a run. *)
Record world := World {
  (* [feedparser.parse(url).entries]; a feed that cannot be parsed has no
     entries *)
  feedparser_parse : str -> list entry;
  (* [YouTubeTranscriptApi.get_transcript(video_id, languages=['tr'])],
     reduced to the text of each item *)
  api_get_transcript : str -> outcome (list str);
  (* [model.generate_content(prompt).text] *)
  model_generate_content : str -> outcome str;
  (* whether a file of that name can be written under [SUMMARIES_DIR] *)
  can_write_summary : str -> bool
}.

(** Calls that leave the process, in the order they happen. *)
Inductive event :=
| EvLoad                                    (* the processed set is loaded *)
| EvFeed (url : str)
| EvTranscript (video_id : str)
| EvGenerate (prompt : str)
| EvArtifact (name content : str)           (* a summary file was written *)
| EvRecord (video_id : str).                (* a line was appended *)

Record state := State {
  processed_videos_file : node;
  summaries : dir_node;
  stdout : list str;                        (* one item per [print] *)
  trace : list event
}.

Definition M (A : Type) : Type := state -> outcome A * state.

Definition ret {A} (a : A) : M A := fun s => (Returned a, s).
Definition raise {A} (e : exn) : M A := fun s => (Raised e, s).
Definition bind {A B} (m : M A) (k : A -> M B) : M B :=
  fun s => match m s with
           | (Returned a, s') => k a s'
           | (Raised e, s') => (Raised e, s')
           end.

Notation "x <- m ;; k" := (bind m (fun x => k))
  (at level 100, m at next level, right associativity).
Notation "m ;;; k" := (bind m (fun _ => k))
  (at level 100, right associativity).

Definition print (line : str) : M unit :=
  fun s => (Returned tt,
            State (processed_videos_file s) (summaries s)
                  (stdout s ++ [line]) (trace s)).

Definition emit (ev : event) : M unit :=
  fun s => (Returned tt,
            State (processed_videos_file s) (summaries s)
                  (stdout s) (trace s ++ [ev])).

Definition set_file (n : node) : M unit :=
  fun s => (Returned tt, State n (summaries s) (stdout s) (trace s)).

Definition get_file : M node :=
  fun s => (Returned (processed_videos_file s), s).

(** ** The state store *)

(** [set(line.strip() for line in f)] on a file whose text is [c]. *)
Definition stripped_lines (c : str) : list str := strip <$> file_lines c.

Definition ids_of_text (c : str) : gset str := list_to_set (stripped_lines c).

(** The body of [get_processed_videos] on the file itself. *)
Definition read_ids (n : node) : outcome (gset str) :=
  match n with
  | Missing _ | Directory => Returned ∅            (* [is_file()] is false *)
  | File false _ _ | Garbled false _ _ =>          (* [open] raises *)
      Raised (permission_denied PROCESSED_VIDEOS_FILE)
  | File true _ c => Returned (ids_of_text c)
  | Garbled true _ err => Raised (UnicodeDecodeError (err []))
  end.

Definition get_processed_videos : M (gset str) :=
  emit EvLoad ;;;
  n <- get_file ;;
  match read_ids n with
  | Returned ids => ret ids
  | Raised e => raise e
  end.

(** [open(PROCESSED_VIDEOS_FILE, "a")]: the file as the call leaves it,
    created empty when there was none, or the error. *)
Definition open_append (n : node) : outcome node :=
  match n with
  | Missing true => Returned (File true true [])
  | Missing false => Raised (permission_denied PROCESSED_VIDEOS_FILE)
  | Directory => Raised (is_a_directory PROCESSED_VIDEOS_FILE)
  | File _ true _ | Garbled _ true _ => Returned n
  | File _ false _ | Garbled _ false _ =>
      Raised (permission_denied PROCESSED_VIDEOS_FILE)
  end.

(** [f.write(t)] on the open file, and the close that ends [with]: the
    text is encoded as a whole and goes to the end of the file. *)
Definition write_end (n : node) (t : str) : outcome node :=
  match encode_error t with
  | Some e => Raised e
  | None =>
      Returned (match n with
                | File r w c => File r w (c ++ t)
                | Garbled r w err => Garbled r w (fun u => err (t ++ u))
                | Missing _ | Directory => n
                end)
  end.

(** The open followed by the write, when both succeed. *)
Definition append_text (n : node) (t : str) : outcome node :=
  match open_append n with
  | Returned n1 => write_end n1 t
  | Raised e => Raised e
  end.

(** The text of [f"{video_id}\n"]. *)
Definition record_line (video_id : str) : str := video_id ++ [LF].

Definition save_processed_video (video_id : str) : M unit :=
  n <- get_file ;;
  match open_append n with
  | Raised e => raise e
  | Returned n1 =>
      set_file n1 ;;;
      match write_end n1 (record_line video_id) with
      | Raised e => raise e
      | Returned n2 => set_file n2 ;;; emit (EvRecord video_id)
      end
  end.

(** ** Settings *)

(** [CHANNELS], in the order the dictionary is written. *)
Definition CHANNELS : list (str * str) :=
  [ (py "Selcoin",
     py "https://www.youtube.com/feeds/videos.xml?channel_id=UC-MOi2r4sS_3m_i-D0_M_GA");
    (py "Bora " ++ [214] ++ py "zkent Official",
     py "https://www.youtube.com/feeds/videos.xml?channel_id=UCy1a2LL6B32Qp5T2D5p11gg") ].

(** [os.getenv('GEMINI_API_KEY')] followed by [if not API_KEY: raise]: both
    [None] and the empty string are false in Python. *)
Definition GEMINI_API_KEY : str := py "GEMINI_API_KEY".

Definition getenv (environ : gmap str str) (name : str) : option str :=
  environ !! name.

Definition missing_key_message : str :=
  py "GEMINI_API_KEY not found. Please add it to your repository's GitHub Secrets.".

Definition load_api_key (environ : gmap str str) : outcome str :=
  match getenv environ GEMINI_API_KEY with
  | None => Raised (ValueError missing_key_message)
  | Some [] => Raised (ValueError missing_key_message)
  | Some (c :: k) => Returned (c :: k)
  end.

(** ** The two service wrappers *)

Definition transcript_error (video_id : str) (e : exn) : str :=
  py "Error: Could not retrieve transcript for video ID " ++ video_id
  ++ py ". Reason: " ++ exn_text e.

Definition get_transcript (w : world) (video_id : str) : M (option str) :=
  emit (EvTranscript video_id) ;;;
  match api_get_transcript w video_id with
  | Returned transcript_list => ret (Some (join (py " ") transcript_list))
  | Raised e => print (transcript_error video_id e) ;;; ret None
  end.

(** The three pieces of [prompt_template] around its two placeholders. *)
Definition prompt_head : str :=
  [10] ++ py "    A" ++ [351] ++ py "a" ++ [287; 305] ++ py "daki metin, "
  ++ [34].

Definition prompt_middle : str :=
  [34] ++ py " ba" ++ [351] ++ py "l" ++ [305] ++ py "kl" ++ [305]
  ++ py " bir YouTube videosunun transkriptidir." ++ [10]
  ++ py "    Bu metni, ana fikirleri ve " ++ [246] ++ py "nemli noktalar"
  ++ [305] ++ py " i" ++ [231] ++ py "erecek " ++ [351]
  ++ py "ekilde, profesyonel bir dille ve madde madde olacak " ++ [351]
  ++ py "ekilde T" ++ [252] ++ py "rk" ++ [231] ++ py "e olarak " ++ [246]
  ++ py "zetle." ++ [10] ++ py "    " ++ [214] ++ py "zetin ba" ++ [351; 305]
  ++ py "na videonun ana temas" ++ [305] ++ py "n" ++ [305]
  ++ py " anlatan k" ++ [305] ++ py "sa bir paragraf ekle." ++ [10; 10]
  ++ py "    MET" ++ [304] ++ py "N:" ++ [10] ++ py "    ".

Definition prompt_tail : str := [10] ++ py "    ".

(** [prompt_template.format(title=title, transcript=transcript)] *)
Definition final_prompt (transcript title : str) : str :=
  prompt_head ++ title ++ prompt_middle ++ transcript ++ prompt_tail.

Definition summarize_error (e : exn) : str :=
  py "Error: Could not summarize with Gemini API. Reason: " ++ exn_text e.

Definition summarize_text (w : world) (transcript title : str)
  : M (option str) :=
  emit (EvGenerate (final_prompt transcript title)) ;;;
  match model_generate_content w (final_prompt transcript title) with
  | Returned text => ret (Some text)
  | Raised e => print (summarize_error e) ;;; ret None
  end.

(** ** The main process *)

(** Modelled from the spec: the error of a summary that cannot be
    written; the spec names no error. *)
Definition write_failed (name : str) : exn :=
  OSError (py "cannot write the summary '" ++ name ++ py "'").

(** Modelled from the spec: the Summary Writer, whose code lies past the
    end of the available source.  The artifact is named from the sanitized
    title alone and holds the summary text; an artifact of the same name is
    overwritten; a failed write raises, and so does a write when
    [SUMMARIES_DIR] is not a directory. *)
Definition write_summary (w : world) (title content : str) : M unit :=
  let name := sanitize_filename title in
  fun s =>
    match summaries s with
    | Dir files =>
        if can_write_summary w name then
          (Returned tt,
           State (processed_videos_file s) (Dir (<[name := content]> files))
                 (stdout s) (trace s ++ [EvArtifact name content]))
        else (Raised (write_failed name), s)
    | NoDir _ | NotDir => (Raised (write_failed name), s)
    end.

(** Modelled from the spec: the body of the loop over the entries of a
    feed, which lies past the end of the available source.  A video whose
    identifier is in the processed set is skipped; otherwise the transcript
    is fetched, then summarized, then the summary is persisted, and only
    then is the identifier recorded and added to the in-memory set.  A
    missing transcript or summary skips the video. *)
Definition process_entry (w : world) (processed_videos : gset str)
    (e : entry) : M (gset str) :=
  let video_id := entry_id e in
  if decide (video_id ∈ processed_videos) then ret processed_videos
  else
    transcript <- get_transcript w video_id ;;
    match transcript with
    | None => ret processed_videos
    | Some transcript =>
        summary <- summarize_text w transcript (entry_title e) ;;
        match summary with
        | None => ret processed_videos
        | Some summary =>
            write_summary w (entry_title e) summary ;;;
            save_processed_video video_id ;;;
            ret ({[video_id]} ∪ processed_videos)
        end
    end.

(** Modelled from the spec: the loop over the entries of a feed, in the
    order the feed gives them, which lies past the end of the available
    source. *)
Fixpoint for_entries (w : world) (entries : list entry)
    (processed_videos : gset str) : M (gset str) :=
  match entries with
  | [] => ret processed_videos
  | e :: rest =>
      processed_videos' <- process_entry w processed_videos e ;;
      for_entries w rest processed_videos'
  end.

(** One turn of [for channel_name, rss_url in CHANNELS.items()]: the line
    printed and the feed parsed are those of the source, which ends
    there; the entries then go through the loop above. *)
Definition check_channel (w : world) (channel : str * str)
    (processed_videos : gset str) : M (gset str) :=
  print ([LF] ++ py "Checking channel: " ++ channel.1) ;;;
  emit (EvFeed channel.2) ;;;
  for_entries w (feedparser_parse w channel.2) processed_videos.

Fixpoint for_channels (w : world) (channels : list (str * str))
    (processed_videos : gset str) : M (gset str) :=
  match channels with
  | [] => ret processed_videos
  | ch :: rest =>
      processed_videos' <- check_channel w ch processed_videos ;;
      for_channels w rest processed_videos'
  end.

(** [SUMMARIES_DIR.mkdir(exist_ok=True)] on the path itself: a directory
    that is there stays, a missing one is created, anything else at the
    path is an error. *)
Definition make_dir (d : dir_node) : outcome dir_node :=
  match d with
  | Dir _ => Returned d
  | NoDir true => Returned (Dir ∅)
  | NoDir false => Raised (permission_denied SUMMARIES_DIR)
  | NotDir => Raised (file_exists SUMMARIES_DIR)
  end.

Definition mkdir_summaries : M unit :=
  fun s =>
    match make_dir (summaries s) with
    | Returned d =>
        (Returned tt, State (processed_videos_file s) d (stdout s) (trace s))
    | Raised e => (Raised e, s)
    end.

(** [main()].  The flag [new_videos_found] is only read past the end of the
    available source and is left out. *)
Definition main_on (w : world) (channels : list (str * str)) : M unit :=
  print (py "Starting process...") ;;;
  mkdir_summaries ;;;
  processed_videos <- get_processed_videos ;;
  for_channels w channels processed_videos ;;;
  ret tt.

Definition main (w : world) : M unit := main_on w CHANNELS.

(** Modelled from the spec: the call of [main()] that runs the job once the
    statements at module level are done.  The statements, with the check of
    the key, are in the source; the call is not in the available source. *)
Definition script (environ : gmap str str) (w : world) : M unit :=
  match load_api_key environ with
  | Raised e => raise e
  | Returned _ => main w
  end.

(** ** Vocabulary of the statements *)

(** The text is empty or ends in a line feed. *)
Definition terminated (c : str) : bool :=
  match last c with
  | None => true
  | Some x => x =? LF
  end.

(** An identifier that a line of the state file can hold as it is: no
    white space at either end, no line break inside. *)
Definition clean_id (v : str) : bool :=
  bool_decide (strip v = v)
  && forallb (fun c => negb (c =? LF) && negb (c =? CR)) v.

(** A text that UTF-8 can encode: it holds no surrogate. *)
Definition encodable (t : str) : bool :=
  forallb (fun c => negb (is_surrogate c)) t.

(** A state file of text that is empty or ends in a line feed, or no
    state file. *)
Definition sound_store (n : node) : bool :=
  match n with
  | File _ _ c => terminated c
  | Garbled _ _ _ => false
  | Missing _ | Directory => true
  end.

(** The identifiers the state file holds, whoever may read it. *)
Definition store_ids (n : node) : gset str :=
  match n with
  | File _ _ c => ids_of_text c
  | Missing _ | Directory | Garbled _ _ _ => ∅
  end.

(** The state file as a call of [save_processed_video] leaves it when the
    open succeeded, whatever the write did. *)
Definition touched (n : node) : node :=
  match open_append n with
  | Returned n1 => n1
  | Raised _ => n
  end.

(** The state file [n''] at the end of a pass whose records made [n'] and
    whose result is [r]: it is [n'], or the empty file that a save created
    before its write was refused by the encoder. *)
Definition store_after {A} (n' : node) (r : outcome A) (n'' : node) : Prop :=
  n'' = n'
  \/ (n' = Missing true /\ n'' = File true true []
      /\ exists msg, r = Raised (UnicodeEncodeError msg)).

(** The files of the summaries directory. *)
Definition summary_files (d : dir_node) : gmap str str :=
  match d with
  | Dir files => files
  | NoDir _ | NotDir => ∅
  end.

Definition is_dir (d : dir_node) : bool :=
  match d with
  | Dir _ => true
  | NoDir _ | NotDir => false
  end.

(** One [save_processed_video] after the other, on the file alone. *)
Fixpoint append_records (n : node) (ids : list str) : outcome node :=
  match ids with
  | [] => Returned n
  | v :: rest =>
      match append_text n (record_line v) with
      | Returned n' => append_records n' rest
      | Raised e => Raised e
      end
  end.

(** [get_processed_videos] returns: the file can be opened and read as
    text, or there is no file to open. *)
Definition readable_store (n : node) : bool :=
  match n with
  | File false _ _ | Garbled _ _ _ => false
  | File true _ _ | Missing _ | Directory => true
  end.

(** [save_processed_video] called for each identifier in turn. *)
Fixpoint record_all (ids : list str) : M unit :=
  match ids with
  | [] => ret tt
  | v :: rest => save_processed_video v ;;; record_all rest
  end.

(** The summary the two services yield for an entry, if both answer. *)
Definition summary_of (w : world) (e : entry) : option str :=
  match api_get_transcript w (entry_id e) with
  | Returned transcript_list =>
      match model_generate_content w
              (final_prompt (join (py " ") transcript_list) (entry_title e)) with
      | Returned text => Some text
      | Raised _ => None
      end
  | Raised _ => None
  end.

(** All entries of the feeds of the given channels, in the order of a run. *)
Definition feed_entries (w : world) (channels : list (str * str))
  : list entry :=
  concat ((fun ch : str * str => feedparser_parse w ch.2) <$> channels).

Definition recorded (ev : event) : option str :=
  match ev with
  | EvRecord v => Some v
  | _ => None
  end.

(** The identifiers appended to the state file along a trace. *)
Definition records_of (t : list event) : list str := omap recorded t.

(** An event that leaves the disk alone. *)
Definition quiet (ev : event) : bool :=
  match ev with
  | EvArtifact _ _ | EvRecord _ => false
  | _ => true
  end.

(** A trace in which every record of an identifier comes right after the
    successful write of the summary of an entry with that identifier. *)
Inductive record_after_write (w : world) (es : list entry)
  : list event -> Prop :=
| raw_nil : record_after_write w es []
| raw_other ev t :
    recorded ev = None ->
    record_after_write w es t ->
    record_after_write w es (ev :: t)
| raw_pair e c t :
    e ∈ es ->
    summary_of w e = Some c ->
    record_after_write w es t ->
    record_after_write w es
      (EvArtifact (sanitize_filename (entry_title e)) c
       :: EvRecord (entry_id e) :: t).

(** What a pass over the entries [es], begun with the in-memory set [P] in
    state [s], has done when it ends in [s'] with result [r], having added
    the events [t]; [all] are the entries of the whole run. *)
Record run_effect (w : world) (all es : list entry) (P : gset str)
    (s : state) (r : outcome (gset str)) (s' : state) (t : list event)
  : Prop := RunEffect {
  eff_trace : trace s' = trace s ++ t;
  eff_order : record_after_write w all t;
  eff_store : exists n',
    append_records (processed_videos_file s) (records_of t) = Returned n'
    /\ store_after n' r (processed_videos_file s');
  eff_dir : is_dir (summaries s) = true -> is_dir (summaries s') = true;
  eff_recorded : forall v, v ∈ records_of t ->
    (v ∉ P) /\ exists e, e ∈ all /\ entry_id e = v /\ is_Some (summary_of w e);
  eff_fetch : forall v, EvTranscript v ∈ t -> v ∉ P;
  eff_done : forall P', r = Returned P' ->
    P' = list_to_set (records_of t) ∪ P
    /\ forall e, e ∈ es -> entry_id e ∈ P' \/ summary_of w e = None
}.

(** The state [s'] after a pass from [s] that left the disk alone and
    requested no transcript of an identifier in [P]. *)
Definition same_disk (P : gset str) (s s' : state) : Prop :=
  processed_videos_file s' = processed_videos_file s
  /\ summaries s' = summaries s
  /\ exists t, trace s' = trace s ++ t
               /\ Forall (fun ev => quiet ev = true) t
               /\ forall v, EvTranscript v ∈ t -> v ∉ P.

(** A pass [m] that was stopped by an exception stops in the same way, and
    leaves the disk alone, when it is taken up again from the disk it left,
    with the set loaded from that disk. *)
Definition replays (m : gset str -> M (gset str)) : Prop :=
  forall P s x s1 s',
    m P s = (Raised x, s1) ->
    P = store_ids (processed_videos_file s) ->
    sound_store (processed_videos_file s) = true ->
    processed_videos_file s' = processed_videos_file s1 ->
    summaries s' = summaries s1 ->
    exists s'',
      m (store_ids (processed_videos_file s1)) s' = (Raised x, s'')
      /\ processed_videos_file s'' = processed_videos_file s'
      /\ summaries s'' = summaries s'
      /\ exists t, trace s'' = trace s' ++ t
                   /\ records_of t = []
                   /\ forall v, EvTranscript v ∈ t ->
                                v ∉ store_ids (processed_videos_file s1).

(** ** Sample data *)

Definition selcoin_url : str :=
  py "https://www.youtube.com/feeds/videos.xml?channel_id=UC-MOi2r4sS_3m_i-D0_M_GA".

(** A state file with one record, nothing else on disk or on screen. *)
Definition one_record : state :=
  State (File true true (py "v1" ++ [LF])) (Dir ∅) [] [].

(** A state file whose last line was left without its line feed. *)
Definition unterminated_record : state :=
  State (File true true (py "v1")) (Dir ∅) [] [].

(** Nothing on disk yet. *)
Definition first_run : state := State (Missing true) (NoDir true) [] [].

(** The feed of the first channel in the sample runs. *)
Definition demo_feed : list entry :=
  [ Entry (py "v1") (py "Intro");
    Entry (py "v2") (py "Update: part 2?");
    Entry (py "v3") (py "Broken");
    Entry (py "v4") (py "Silent") ].

Definition feed_of (es : list entry) (url : str) : list entry :=
  if decide (url = selcoin_url) then es else [].

(** Video v3 has no transcript and the summary of v4 is refused. *)
Definition demo_world : world :=
  World (feed_of demo_feed)
        (fun v => if decide (v = py "v3")
                  then Raised (ServiceError (py "TranscriptsDisabled"))
                  else Returned [py "hello"; py "world"])
        (fun p => if decide (p = final_prompt (py "hello world") (py "Silent"))
                  then Raised (ServiceError (py "quota exceeded"))
                  else Returned (py "summary"))
        (fun _ => true).

(** Two identifiers that differ by a trailing space; the second has no
    transcript. *)
Definition alias_feed : list entry :=
  [ Entry (py "b ") (py "T1"); Entry (py "b") (py "T2") ].

Definition alias_world : world :=
  World (feed_of alias_feed)
        (fun v => if decide (v = py "b")
                  then Raised (ServiceError (py "TranscriptsDisabled"))
                  else Returned [py "text"])
        (fun _ => Returned (py "summary"))
        (fun _ => true).

(** The same feed; here the summary of the second video is refused. *)
Definition alias_world' : world :=
  World (feed_of alias_feed)
        (fun _ => Returned [py "text"])
        (fun p => if decide (p = final_prompt (py "text") (py "T2"))
                  then Raised (ServiceError (py "quota exceeded"))
                  else Returned (py "summary"))
        (fun _ => true).

(** One feed, seen while the transcript service is down and again when it
    is up. *)
Definition single_feed : list entry := [ Entry (py "v2") (py "Update") ].

Definition world_down : world :=
  World (feed_of single_feed)
        (fun _ => Raised (ServiceError (py "connection reset")))
        (fun _ => Returned (py "summary"))
        (fun _ => true).

Definition world_up : world :=
  World (feed_of single_feed)
        (fun _ => Returned [py "text"])
        (fun _ => Returned (py "summary"))
        (fun _ => true).

(** A state file that holds the single letter v and no line feed. *)
Definition half_line : state := State (File true true (py "v")) (Dir ∅) [] [].

(** The identifier 2 and the identifier v2; the second has no
    transcript. *)
Definition joined_feed : list entry :=
  [ Entry (py "2") (py "T1"); Entry (py "v2") (py "T2") ].

Definition joined_world : world :=
  World (feed_of joined_feed)
        (fun v => if decide (v = py "v2")
                  then Raised (ServiceError (py "TranscriptsDisabled"))
                  else Returned [py "text"])
        (fun _ => Returned (py "summary"))
        (fun _ => true).

(** The same feed; here the summary of the second video is refused. *)
Definition joined_world' : world :=
  World (feed_of joined_feed)
        (fun _ => Returned [py "text"])
        (fun p => if decide (p = final_prompt (py "text") (py "T2"))
                  then Raised (ServiceError (py "quota exceeded"))
                  else Returned (py "summary"))
        (fun _ => true).

(** One identifier in two entries; the summary of the first is refused,
    that of the second is not. *)
Definition twice_feed : list entry :=
  [ Entry (py "v5") (py "T1"); Entry (py "v5") (py "T2") ].

Definition twice_world : world :=
  World (feed_of twice_feed)
        (fun _ => Returned [py "text"])
        (fun p => if decide (p = final_prompt (py "text") (py "T1"))
                  then Raised (ServiceError (py "quota exceeded"))
                  else Returned (py "summary"))
        (fun _ => true).

(** A feed whose only identifier begins with a space. *)
Definition spaced_world : world :=
  World (feed_of [ Entry (py " v1") (py "Intro") ])
        (fun _ => Returned [py "text"])
        (fun _ => Returned (py "summary"))
        (fun _ => true).

(** ** Facts about text *)

Section Text.

Implicit Types (s c d : str) (x : N).

Lemma lstrip_head s x : head (lstrip s) = Some x -> isspace x = false.
Proof.
  induction s as [|y r IH]; simpl; [discriminate|].
  destruct (isspace y) eqn:E; [exact IH|].
  simpl. intros [= <-]. exact E.
Qed.

Lemma lstrip_fixed s :
  (forall x, head s = Some x -> isspace x = false) -> lstrip s = s.
Proof.
  destruct s as [|y r]; [reflexivity|].
  intros H. simpl. rewrite (H y); reflexivity.
Qed.

Lemma lstrip_suffix s : exists k, s = k ++ lstrip s.
Proof.
  induction s as [|y r [k IH]]; [by exists []|].
  simpl. destruct (isspace y).
  - exists (y :: k). simpl. by f_equal.
  - by exists [].
Qed.

Lemma rstrip_last s x : last (rstrip s) = Some x -> isspace x = false.
Proof. unfold rstrip. rewrite last_reverse. apply lstrip_head. Qed.

Lemma rstrip_fixed s :
  (forall x, last s = Some x -> isspace x = false) -> rstrip s = s.
Proof.
  intros H. unfold rstrip. rewrite lstrip_fixed.
  - apply reverse_involutive.
  - intros x. rewrite head_reverse. apply H.
Qed.

Lemma rstrip_prefix s : exists k, s = rstrip s ++ k.
Proof.
  unfold rstrip. destruct (lstrip_suffix (reverse s)) as [k Hk].
  exists (reverse k).
  rewrite <- reverse_app, <- Hk. symmetry. apply reverse_involutive.
Qed.

Lemma strip_head s x : head (strip s) = Some x -> isspace x = false.
Proof.
  unfold strip. destruct (rstrip_prefix (lstrip s)) as [k Hk].
  intros H. apply (lstrip_head s). rewrite Hk.
  destruct (rstrip (lstrip s)); [discriminate|exact H].
Qed.

Lemma strip_last s x : last (strip s) = Some x -> isspace x = false.
Proof. apply rstrip_last. Qed.

Lemma strip_fixed s :
  (forall x, head s = Some x -> isspace x = false) ->
  (forall x, last s = Some x -> isspace x = false) ->
  strip s = s.
Proof.
  intros Hh Hl. unfold strip. rewrite (lstrip_fixed s Hh).
  by apply rstrip_fixed.
Qed.

Lemma strip_idemp s : strip (strip s) = strip s.
Proof. apply strip_fixed; [apply strip_head | apply strip_last]. Qed.

End Text.

(** ** Facts about lines *)

Section Lines.

Implicit Types (s c d v : str) (x : N).

Lemma terminated_inv c :
  terminated c = true -> c = [] \/ exists c', c = c' ++ [LF].
Proof.
  unfold terminated. destruct (last c) as [x|] eqn:E.
  - intros Hx. apply N.eqb_eq in Hx. subst x.
    right. by apply last_Some.
  - intros _. left. by apply last_None.
Qed.

Lemma terminated_snoc c : terminated (c ++ [LF]) = true.
Proof. unfold terminated. by rewrite last_snoc. Qed.

Lemma terminated_record c v : terminated (c ++ record_line v) = true.
Proof. unfold record_line. rewrite app_assoc. apply terminated_snoc. Qed.

Lemma translate_newlines_two x y (r : str) :
  translate_newlines (x :: y :: r)
  = if x =? CR then
      if y =? LF then LF :: translate_newlines r
      else LF :: translate_newlines (y :: r)
    else x :: translate_newlines (y :: r).
Proof. reflexivity. Qed.

(** The translation of line ends goes through a line feed.  The function
    looks one character ahead, so the statement is proved for a text and
    for the same text with one more character in front. *)
Lemma translate_newlines_cut c d :
  translate_newlines (c ++ LF :: d)
  = translate_newlines (c ++ [LF]) ++ translate_newlines d
  /\ forall x,
      translate_newlines (x :: c ++ LF :: d)
      = translate_newlines (x :: c ++ [LF]) ++ translate_newlines d.
Proof.
  induction c as [|y c [IH1 IH2]].
  - split; [reflexivity|]. intros x. simpl.
    destruct (x =? CR); reflexivity.
  - split; [apply IH2|]. intros x.
    change (translate_newlines (x :: y :: (c ++ LF :: d))
            = translate_newlines (x :: y :: (c ++ [LF]))
              ++ translate_newlines d).
    rewrite !translate_newlines_two. destruct (x =? CR).
    + destruct (y =? LF).
      * rewrite IH1. reflexivity.
      * rewrite (IH2 y). reflexivity.
    + rewrite (IH2 y). reflexivity.
Qed.

Lemma translate_newlines_snoc c :
  (exists t, translate_newlines (c ++ [LF]) = t ++ [LF])
  /\ forall x, exists t, translate_newlines (x :: c ++ [LF]) = t ++ [LF].
Proof.
  induction c as [|y c [IH1 IH2]].
  - split; [by exists []|]. intros x. simpl.
    destruct (x =? CR); [by exists [] | by exists [x]].
  - split; [apply IH2|]. intros x.
    change (exists t, translate_newlines (x :: y :: (c ++ [LF])) = t ++ [LF]).
    rewrite translate_newlines_two. destruct (x =? CR).
    + destruct (y =? LF).
      * destruct IH1 as [t ->]. by exists (LF :: t).
      * destruct (IH2 y) as [t ->]. by exists (LF :: t).
    + destruct (IH2 y) as [t ->]. by exists (x :: t).
Qed.

Lemma readlines_nil s : readlines s = [] -> s = [].
Proof.
  destruct s as [|x r]; [done|]. simpl.
  destruct (x =? LF); [done|]. by destruct (readlines r).
Qed.

Lemma readlines_cut c d :
  readlines (c ++ LF :: d) = readlines (c ++ [LF]) ++ readlines d.
Proof.
  induction c as [|y c IH]; [reflexivity|].
  simpl. destruct (y =? LF).
  - by rewrite IH.
  - rewrite IH. destruct (readlines (c ++ [LF])) eqn:E; [|reflexivity].
    apply readlines_nil in E. by destruct c.
Qed.

Lemma file_lines_app c d :
  terminated c = true -> file_lines (c ++ d) = file_lines c ++ file_lines d.
Proof.
  intros [->|[c' ->]]%terminated_inv; [reflexivity|].
  unfold file_lines. rewrite <- app_assoc. simpl.
  rewrite (proj1 (translate_newlines_cut c' d)).
  destruct (proj1 (translate_newlines_snoc c')) as [t ->].
  rewrite <- app_assoc. simpl. rewrite readlines_cut.
  reflexivity.
Qed.

Lemma ids_of_text_app c d :
  terminated c = true -> ids_of_text (c ++ d) = ids_of_text c ∪ ids_of_text d.
Proof.
  intros H. unfold ids_of_text, stripped_lines.
  rewrite file_lines_app by done. rewrite fmap_app.
  apply list_to_set_app_L.
Qed.

Lemma clean_id_inv v :
  clean_id v = true ->
  strip v = v /\ Forall (fun x => x <> LF /\ x <> CR) v.
Proof.
  unfold clean_id. intros [H1 H2]%andb_true_iff.
  apply bool_decide_eq_true in H1. split; [done|].
  apply Forall_forall. intros x Hx.
  rewrite forallb_forall in H2.
  specialize (H2 x (proj1 (list_elem_of_In _ _) Hx)).
  apply andb_true_iff in H2 as [Ha Hb].
  apply negb_true_iff in Ha, Hb.
  apply N.eqb_neq in Ha, Hb. done.
Qed.

Lemma translate_newlines_plain v d :
  Forall (fun x => x <> CR) v ->
  translate_newlines (v ++ d) = v ++ translate_newlines d.
Proof.
  induction 1 as [|x v Hx _ IH]; [reflexivity|].
  simpl. apply N.eqb_neq in Hx. rewrite Hx. by rewrite IH.
Qed.

Lemma readlines_plain v :
  Forall (fun x => x <> LF) v -> readlines (v ++ [LF]) = [v ++ [LF]].
Proof.
  induction 1 as [|x v Hx _ IH]; [reflexivity|].
  simpl. apply N.eqb_neq in Hx. rewrite Hx. by rewrite IH.
Qed.

Lemma file_lines_record v :
  Forall (fun x => x <> LF /\ x <> CR) v ->
  file_lines (record_line v) = [record_line v].
Proof.
  intros H. unfold file_lines, record_line.
  rewrite translate_newlines_plain.
  - apply readlines_plain. eapply Forall_impl; [exact H|]. by intros x [].
  - eapply Forall_impl; [exact H|]. by intros x [].
Qed.

Lemma strip_record v : strip v = v -> strip (record_line v) = v.
Proof.
  intros Hv. unfold record_line.
  destruct v as [|x v]; [reflexivity|].
  assert (Hh : isspace x = false).
  { apply (strip_head (x :: v)). by rewrite Hv. }
  assert (Hl : forall y, last (x :: v) = Some y -> isspace y = false).
  { intros y Hy. apply (strip_last (x :: v)). by rewrite Hv. }
  unfold strip. rewrite lstrip_fixed.
  - unfold rstrip. rewrite reverse_snoc. simpl.
    fold (rstrip (x :: v)). by apply rstrip_fixed.
  - simpl. by intros y [= <-].
Qed.

Lemma ids_of_text_record v : clean_id v = true -> ids_of_text (record_line v) = {[v]}.
Proof.
  intros [Hs Hv]%clean_id_inv. unfold ids_of_text, stripped_lines.
  rewrite file_lines_record by done. simpl.
  rewrite strip_record by done. simpl. apply (right_id_L ∅ (∪)).
Qed.

End Lines.

(** ** The state store *)

Section Store.

Implicit Types (n : node) (v c : str) (s : state).

Lemma read_ids_readable n :
  readable_store n = true -> read_ids n = Returned (store_ids n).
Proof. by destruct n as [| |[]|]. Qed.

Lemma read_ids_unreadable n :
  readable_store n = false -> exists e, read_ids n = Raised e.
Proof. destruct n as [| |[]|[]]; try done; intros _; by eexists. Qed.

Lemma get_processed_videos_eq s :
  get_processed_videos s
  = let s' := State (processed_videos_file s) (summaries s) (stdout s)
                    (trace s ++ [EvLoad]) in
    match read_ids (processed_videos_file s) with
    | Returned ids => (Returned ids, s')
    | Raised e => (Raised e, s')
    end.
Proof.
  unfold get_processed_videos, bind, emit, get_file. simpl.
  destruct (read_ids _); reflexivity.
Qed.

Lemma save_processed_video_eq v s :
  save_processed_video v s
  = match append_text (processed_videos_file s) (record_line v) with
    | Returned n' =>
        (Returned tt,
         State n' (summaries s) (stdout s) (trace s ++ [EvRecord v]))
    | Raised e =>
        (Raised e,
         State (touched (processed_videos_file s)) (summaries s) (stdout s)
               (trace s))
    end.
Proof.
  unfold save_processed_video, append_text, touched, bind, get_file.
  destruct s as [n sm out tr]. simpl.
  destruct (open_append n) as [n1|e]; [|reflexivity].
  unfold set_file. simpl. destruct (write_end n1 _); reflexivity.
Qed.

Lemma encode_error_kind t e :
  encode_error t = Some e -> exists msg, e = UnicodeEncodeError msg.
Proof.
  unfold encode_error. generalize 0. induction t as [|c r IH]; intros pos.
  - discriminate.
  - simpl. destruct (is_surrogate c); [|apply IH].
    intros [= <-]. by eexists.
Qed.

Lemma encode_error_encodable t :
  encodable t = true -> encode_error t = None.
Proof.
  unfold encode_error. generalize 0. induction t as [|c r IH]; intros pos.
  - reflexivity.
  - simpl. destruct (is_surrogate c); [discriminate|]. apply IH.
Qed.

Lemma encode_error_record v :
  encodable v = true -> encode_error (record_line v) = None.
Proof.
  intros Hv. apply encode_error_encodable. unfold encodable, record_line.
  rewrite forallb_app. unfold encodable in Hv. by rewrite Hv.
Qed.

Lemma encode_error_unencodable t u :
  encodable t = false -> exists e, encode_error (t ++ u) = Some e.
Proof.
  unfold encode_error. generalize 0. induction t as [|c r IH]; intros pos.
  - discriminate.
  - simpl. destruct (is_surrogate c); [by eexists|]. apply IH.
Qed.

Lemma append_text_unencodable n v :
  encodable v = false -> exists e, append_text n (record_line v) = Raised e.
Proof.
  intros Hv. unfold append_text, write_end, record_line.
  destruct (encode_error_unencodable v [LF] Hv) as [e ->].
  destruct (open_append n); by eexists.
Qed.

Lemma touched_inv {A} n t e :
  append_text n t = Raised e ->
  store_after n (Raised e : outcome A) (touched n).
Proof.
  unfold append_text, touched, store_after, write_end.
  destruct n as [[]| |r []|r []]; simpl; try by left.
  destruct (encode_error t) as [e'|] eqn:E; [|discriminate].
  intros [= <-]. right. apply encode_error_kind in E as [msg ->].
  by eauto.
Qed.

Lemma store_after_inv {A} n' (r : outcome A) n'' :
  store_after n' r n'' ->
  store_ids n'' = store_ids n' /\ sound_store n'' = sound_store n'
  /\ readable_store n'' = readable_store n'.
Proof. by intros [->|(-> & -> & _)]. Qed.

Lemma store_after_returned {A} n' (x : A) n'' :
  store_after n' (Returned x) n'' -> n'' = n'.
Proof. intros [->|(_ & _ & msg & [=])]. reflexivity. Qed.

Lemma touched_idemp n : touched (touched n) = touched n.
Proof. by destruct n as [[]| |r []|r []]. Qed.

Lemma touched_ids n : store_ids (touched n) = store_ids n.
Proof. by destruct n as [[]| |r []|r []]. Qed.

Lemma touched_sound n : sound_store (touched n) = sound_store n.
Proof. by destruct n as [[]| |r []|r []]. Qed.

Lemma touched_append n t : append_text (touched n) t = append_text n t.
Proof. by destruct n as [[]| |r []|r []]. Qed.

Lemma touched_read n : read_ids (touched n) = read_ids n.
Proof. by destruct n as [[]| |r []|r []]. Qed.

Lemma append_records_app n ids1 ids2 :
  append_records n (ids1 ++ ids2)
  = match append_records n ids1 with
    | Returned n' => append_records n' ids2
    | Raised e => Raised e
    end.
Proof.
  revert n. induction ids1 as [|v ids1 IH]; intros n; [reflexivity|].
  simpl. destruct (append_text n (record_line v)); [apply IH|reflexivity].
Qed.

Lemma append_text_ids n v n' :
  sound_store n = true -> clean_id v = true ->
  append_text n (record_line v) = Returned n' ->
  store_ids n' = {[v]} ∪ store_ids n /\ sound_store n' = true
  /\ (readable_store n = true -> readable_store n' = true).
Proof.
  intros Hn Hv. unfold append_text, write_end.
  destruct n as [[]| |r [] c|r []]; simpl; try done.
  all: destruct (encode_error _); [done|]; intros [= <-]; simpl.
  - rewrite ids_of_text_record by done.
    split; [by rewrite (right_id_L ∅ (∪))|].
    split; [apply (terminated_record [])|done].
  - rewrite ids_of_text_app, ids_of_text_record by done.
    split; [apply (comm_L (∪))|].
    split; [apply terminated_record|done].
Qed.

Lemma append_records_ids n ids n' :
  sound_store n = true ->
  Forall (fun v => clean_id v = true) ids ->
  append_records n ids = Returned n' ->
  store_ids n' = list_to_set ids ∪ store_ids n /\ sound_store n' = true
  /\ (readable_store n = true -> readable_store n' = true).
Proof.
  intros Hn Hids. revert n Hn.
  induction Hids as [|v ids Hv _ IH]; intros n Hn; simpl.
  - intros [= <-]. split; [by rewrite (left_id_L ∅ (∪))|done].
  - destruct (append_text n (record_line v)) as [n1|] eqn:E; [|done].
    intros H. destruct (append_text_ids n v n1 Hn Hv E) as (Hi & Hs & Hr).
    destruct (IH n1 Hs H) as (Hi' & Hs' & Hr').
    split; [|split; [done|tauto]].
    rewrite Hi', Hi. set_solver.
Qed.

Lemma append_records_file r w c ids n' :
  append_records (File r w c) ids = Returned n' ->
  exists d, n' = File r w (c ++ d).
Proof.
  revert c. induction ids as [|v ids IH]; intros c; simpl.
  - intros [= <-]. exists []. by rewrite app_nil_r.
  - unfold append_text, write_end. destruct w; [|discriminate]. simpl.
    destruct (encode_error _); [discriminate|]. intros [d ->]%IH.
    exists (record_line v ++ d). by rewrite app_assoc.
Qed.

Lemma ids_of_text_keeps c v (d : str) :
  terminated c = true -> clean_id v = true ->
  v ∈ ids_of_text (c ++ record_line v ++ d).
Proof.
  intros Hc Hv. rewrite ids_of_text_app by done.
  rewrite ids_of_text_app by apply (terminated_record []).
  rewrite ids_of_text_record by done. set_solver.
Qed.

Lemma record_all_store ids s r s' :
  record_all ids s = (r, s') ->
  match r with
  | Returned _ =>
      append_records (processed_videos_file s) ids
      = Returned (processed_videos_file s')
  | Raised _ => True
  end.
Proof.
  revert s. induction ids as [|v ids IH]; intros s; simpl.
  - by intros [= <- <-].
  - unfold bind. rewrite save_processed_video_eq.
    destruct (append_text _ _) as [n1|] eqn:E.
    + intros H. apply IH in H. exact H.
    + by intros [= <- <-].
Qed.

End Store.

(** ** [sanitize_filename] *)

Lemma sanitize_filename_filter (name : str) :
  sanitize_filename name = filter (fun c => c ∉ forbidden_chars) name.
Proof.
  unfold sanitize_filename.
  induction name as [|c r IH]; [reflexivity|].
  simpl. unfold forbidden at 1. case_bool_decide as Hc.
  - rewrite filter_cons_False by tauto. exact IH.
  - rewrite filter_cons_True by done. by rewrite IH.
Qed.

(** C9.  [sanitize_filename] keeps exactly the characters of the title that
    are not in the forbidden class, in their order: no forbidden character
    is left, a title without one is returned as it is, the space is kept,
    and the title of the scenario, Top 10: Best Tips? with Best in double
    quotes, becomes Top 10 Best Tips. *)
Theorem sanitize_filename_strips_forbidden :
  (forall name : str,
     sanitize_filename name = filter (fun c => c ∉ forbidden_chars) name)
  /\ (forall (name : str) (c : N),
        c ∈ sanitize_filename name <-> c ∈ name /\ c ∉ forbidden_chars)
  /\ (forall name : str,
        Forall (fun c => c ∉ forbidden_chars) name ->
        sanitize_filename name = name)
  /\ forbidden 32 = false
  /\ sanitize_filename
       (py "Top 10: " ++ [34] ++ py "Best" ++ [34] ++ py " Tips?")
     = py "Top 10 Best Tips".
Proof.
  split; [exact sanitize_filename_filter|].
  split.
  { intros name c. rewrite sanitize_filename_filter, list_elem_of_filter.
    tauto. }
  split.
  { intros name H. rewrite sanitize_filename_filter.
    induction H as [|c r Hc _ IH]; [reflexivity|].
    rewrite filter_cons_True by done. by rewrite IH. }
  split; reflexivity.
Qed.

Lemma sanitize_filename_strips_forbidden_witness :
  sanitize_filename (py "Intro 1 - Update") = py "Intro 1 - Update".
Proof.
  apply (proj1 (proj2 (proj2 sanitize_filename_strips_forbidden))).
  apply (bool_decide_unpack _). vm_compute. exact I.
Defined.

(** ** Loading and recording *)

(** C3.  [get_processed_videos] returns the empty set, and raises nothing,
    when there is no state file (nothing at its path, or a directory
    there); it raises only when the file is there and cannot be read, be it
    that it cannot be opened or that its bytes do not decode, and then it
    does raise. *)
Theorem get_processed_videos_missing_is_empty :
  (forall cr sm out tr,
     get_processed_videos (State (Missing cr) sm out tr)
     = (Returned ∅, State (Missing cr) sm out (tr ++ [EvLoad])))
  /\ (forall sm out tr,
        get_processed_videos (State Directory sm out tr)
        = (Returned ∅, State Directory sm out (tr ++ [EvLoad])))
  /\ (forall s e s',
        get_processed_videos s = (Raised e, s') ->
        (exists w c, processed_videos_file s = File false w c)
        \/ (exists r w err, processed_videos_file s = Garbled r w err))
  /\ (forall w c sm out tr,
        get_processed_videos (State (File false w c) sm out tr)
        = (Raised (permission_denied PROCESSED_VIDEOS_FILE),
           State (File false w c) sm out (tr ++ [EvLoad])))
  /\ (forall w err sm out tr,
        get_processed_videos (State (Garbled false w err) sm out tr)
        = (Raised (permission_denied PROCESSED_VIDEOS_FILE),
           State (Garbled false w err) sm out (tr ++ [EvLoad])))
  /\ (forall w err sm out tr,
        get_processed_videos (State (Garbled true w err) sm out tr)
        = (Raised (UnicodeDecodeError (err [])),
           State (Garbled true w err) sm out (tr ++ [EvLoad]))).
Proof.
  split; [reflexivity|]. split; [reflexivity|].
  split; [|repeat split; reflexivity].
  intros s e s'. rewrite get_processed_videos_eq.
  destruct (processed_videos_file s) as [| |[] w c|r w err]; simpl;
    try discriminate; intros _.
  - left. by exists w, c.
  - right. by exists r, w, err.
Qed.

Lemma get_processed_videos_missing_is_empty_witness :
  (exists w c, File false true (py "v1") = File false w c)
  \/ (exists r w err, File false true (py "v1") = Garbled r w err).
Proof.
  apply (proj1 (proj2 (proj2 get_processed_videos_missing_is_empty))
           (State (File false true (py "v1")) (Dir ∅) [] [])
           (permission_denied PROCESSED_VIDEOS_FILE)
           (State (File false true (py "v1")) (Dir ∅) [] [EvLoad])).
  reflexivity.
Defined.

(** C4 as stated fails.  On a state file whose text is v1 with no line
    feed after it, recording v2 leaves the single line v1v2: the file has
    as many lines as before and none of them is v2.  An identifier with a
    line feed inside leaves two more lines.  An identifier that holds a
    surrogate cannot be encoded: the call raises and appends nothing, and
    has created an empty file when there was none. *)
Lemma save_processed_video_counterexample :
  (exists s1,
     save_processed_video (py "v2") unterminated_record = (Returned tt, s1)
     /\ processed_videos_file s1 = File true true (py "v1v2" ++ [LF])
     /\ file_lines (py "v1") = [py "v1"]
     /\ file_lines (py "v1v2" ++ [LF]) = [py "v1v2" ++ [LF]])
  /\ (exists s1 c,
        save_processed_video (py "a" ++ [LF] ++ py "b") one_record
        = (Returned tt, s1)
        /\ processed_videos_file s1 = File true true c
        /\ file_lines c
           = [py "v1" ++ [LF]; py "a" ++ [LF]; py "b" ++ [LF]])
  /\ save_processed_video [56448] first_run
     = (Raised (UnicodeEncodeError
                  (py "'utf-8' codec can't encode character '"
                   ++ [92] ++ py "udc80' in position 0: surrogates not allowed")),
        State (File true true []) (NoDir true) [] [])
  /\ save_processed_video (py "v" ++ [56448; 56449]) one_record
     = (Raised (UnicodeEncodeError
                  (py "'utf-8' codec can't encode characters in position 1-2: surrogates not allowed")),
        one_record).
Proof.
  split; [|split; [|split]].
  - eexists. split; [reflexivity|]. split; [reflexivity|].
    split; vm_compute; reflexivity.
  - eexists _, _. split; [reflexivity|]. split; [reflexivity|].
    vm_compute; reflexivity.
  - vm_compute; reflexivity.
  - vm_compute; reflexivity.
Qed.

(** C4, as the code has it.  For an identifier that can be encoded, on a
    state file that holds text and is writable, or is missing and can be
    created, [save_processed_video] puts the identifier and one line feed
    at the end of the text of the file, whatever the identifier and
    whatever the file already holds; called twice with one identifier it
    leaves that text twice.  When the identifier has no line break and the
    file was missing, empty or ended in a line feed, these are exactly one,
    respectively two, more lines of the file.  For an identifier that
    cannot be encoded the call raises and nothing is appended. *)
Theorem save_processed_video_appends_line :
  (forall v r c sm out tr,
     encodable v = true ->
     save_processed_video v (State (File r true c) sm out tr)
     = (Returned tt,
        State (File r true (c ++ v ++ [LF])) sm out (tr ++ [EvRecord v])))
  /\ (forall v sm out tr,
        encodable v = true ->
        save_processed_video v (State (Missing true) sm out tr)
        = (Returned tt,
           State (File true true (v ++ [LF])) sm out (tr ++ [EvRecord v])))
  /\ (forall v r c sm out tr,
        encodable v = true ->
        (save_processed_video v ;;; save_processed_video v)
          (State (File r true c) sm out tr)
        = (Returned tt,
           State (File r true (c ++ (v ++ [LF]) ++ (v ++ [LF]))) sm out
                 (tr ++ [EvRecord v; EvRecord v])))
  /\ (forall v sm out tr,
        encodable v = true ->
        (save_processed_video v ;;; save_processed_video v)
          (State (Missing true) sm out tr)
        = (Returned tt,
           State (File true true ((v ++ [LF]) ++ (v ++ [LF]))) sm out
                 (tr ++ [EvRecord v; EvRecord v])))
  /\ (forall v c,
        terminated c = true ->
        Forall (fun x => x <> LF /\ x <> CR) v ->
        file_lines (c ++ (v ++ [LF])) = file_lines c ++ [v ++ [LF]]
        /\ file_lines (c ++ (v ++ [LF]) ++ (v ++ [LF]))
           = file_lines c ++ [v ++ [LF]; v ++ [LF]])
  /\ (forall v s,
        encodable v = false ->
        exists e,
          save_processed_video v s
          = (Raised e,
             State (touched (processed_videos_file s)) (summaries s)
                   (stdout s) (trace s))
          /\ store_ids (touched (processed_videos_file s))
             = store_ids (processed_videos_file s)).
Proof.
  split.
  { intros v r c sm out tr Hv. rewrite save_processed_video_eq. simpl.
    unfold append_text, write_end. simpl.
    by rewrite (encode_error_record v Hv). }
  split.
  { intros v sm out tr Hv. rewrite save_processed_video_eq. simpl.
    unfold append_text, write_end. simpl.
    by rewrite (encode_error_record v Hv). }
  split.
  { intros v r c sm out tr Hv. unfold bind.
    rewrite save_processed_video_eq. simpl.
    unfold append_text, write_end. simpl.
    rewrite (encode_error_record v Hv).
    rewrite save_processed_video_eq. simpl.
    unfold append_text, write_end. simpl.
    rewrite (encode_error_record v Hv). unfold record_line.
    by rewrite <- !app_assoc. }
  split.
  { intros v sm out tr Hv. unfold bind.
    rewrite save_processed_video_eq. simpl.
    unfold append_text, write_end. simpl.
    rewrite (encode_error_record v Hv).
    rewrite save_processed_video_eq. simpl.
    unfold append_text, write_end. simpl.
    rewrite (encode_error_record v Hv). unfold record_line.
    by rewrite <- !app_assoc. }
  split.
  { intros v c Hc Hv.
    pose proof (file_lines_record v Hv) as Hl. unfold record_line in Hl.
    split.
    - by rewrite file_lines_app, Hl.
    - rewrite file_lines_app by done.
      rewrite (file_lines_app (v ++ [LF])) by apply terminated_snoc.
      by rewrite Hl. }
  intros v s Hv.
  destruct (append_text_unencodable (processed_videos_file s) v Hv)
    as [e He].
  exists e. rewrite save_processed_video_eq, He.
  split; [reflexivity|apply touched_ids].
Qed.

Lemma save_processed_video_appends_line_witness :
  save_processed_video (py "v2") one_record
  = (Returned tt,
     State (File true true ((py "v1" ++ [LF]) ++ py "v2" ++ [LF])) (Dir ∅) []
           [EvRecord (py "v2")])
  /\ file_lines (py "v1" ++ [LF] ++ (py "v2" ++ [LF]) ++ (py "v2" ++ [LF]))
     = file_lines (py "v1" ++ [LF]) ++ [py "v2" ++ [LF]; py "v2" ++ [LF]].
Proof.
  split.
  - apply (proj1 save_processed_video_appends_line
             (py "v2") true (py "v1" ++ [LF]) (Dir ∅) [] []).
    reflexivity.
  - apply (proj1 (proj2 (proj2 (proj2 (proj2
             save_processed_video_appends_line))))
             (py "v2") (py "v1" ++ [LF])).
    + reflexivity.
    + apply (bool_decide_unpack _). vm_compute. exact I.
Defined.

(** C5, as the code has it.  After [save_processed_video v], and after any
    further calls of it, [get_processed_videos] returns a set that holds
    [v], provided [v] has no white space at its ends and no line break, and
    the state file was missing, or readable and empty or ending in a line
    feed. *)
Theorem record_then_load (v : str) (later : list str) (s s1 s2 : state) :
  clean_id v = true ->
  sound_store (processed_videos_file s) = true ->
  readable_store (processed_videos_file s) = true ->
  save_processed_video v s = (Returned tt, s1) ->
  record_all later s1 = (Returned tt, s2) ->
  exists ids s3,
    get_processed_videos s2 = (Returned ids, s3) /\ v ∈ ids.
Proof.
  intros Hv Hs Hr H1 H2.
  rewrite save_processed_video_eq in H1.
  destruct (append_text _ _) as [n1|] eqn:E; [|discriminate].
  injection H1 as <-.
  apply record_all_store in H2. simpl in H2.
  rewrite get_processed_videos_eq.
  unfold append_text, write_end in E.
  destruct (processed_videos_file s) as [[]| |r [] c|r []];
    simpl in E; try discriminate.
  all: destruct (encode_error _); [discriminate|]; injection E as <-.
  - apply append_records_file in H2 as [d ->]. simpl.
    eexists _, _. split; [reflexivity|].
    apply (ids_of_text_keeps []); done.
  - simpl in Hr, Hs. apply append_records_file in H2 as [d ->].
    destruct r; [|discriminate]. simpl.
    eexists _, _. split; [reflexivity|].
    rewrite <- app_assoc. by apply ids_of_text_keeps.
Qed.


Lemma record_then_load_witness :
  exists ids s3,
    get_processed_videos
      (State (File true true
                (py "v1" ++ [LF] ++ py "v2" ++ [LF] ++ py "v3" ++ [LF]))
             (Dir ∅) [] [EvRecord (py "v2"); EvRecord (py "v3")])
    = (Returned ids, s3)
    /\ py "v2" ∈ ids.
Proof.
  apply (record_then_load (py "v2") [py "v3"] one_record
           (State (File true true (py "v1" ++ [LF] ++ py "v2" ++ [LF]))
                  (Dir ∅) [] [EvRecord (py "v2")])).
  all: reflexivity.
Defined.

(** C5 as stated fails.  On a state file whose text is v1 with no line
    feed after it, recording v2 leaves the single line v1v2, and the set
    loaded afterwards does not hold v2.  On a state file that ends in a
    line feed, recording an identifier that begins with a space, or one
    with a line feed inside, leaves lines that strip to other strings. *)
Lemma record_then_load_counterexample :
  (exists s1 ids s2,
     save_processed_video (py "v2") unterminated_record = (Returned tt, s1)
     /\ get_processed_videos s1 = (Returned ids, s2)
     /\ py "v2" ∉ ids)
  /\ (exists s1 ids s2,
        save_processed_video (py " v2") one_record = (Returned tt, s1)
        /\ get_processed_videos s1 = (Returned ids, s2)
        /\ py " v2" ∉ ids)
  /\ (exists s1 ids s2,
        save_processed_video (py "a" ++ [LF] ++ py "b") one_record
        = (Returned tt, s1)
        /\ get_processed_videos s1 = (Returned ids, s2)
        /\ py "a" ++ [LF] ++ py "b" ∉ ids).
Proof.
  split; [|split].
  all: eexists _, _, _; split; [reflexivity|]; split; [reflexivity|].
  all: unfold ids_of_text; rewrite elem_of_list_to_set.
  all: intros H; apply list_elem_of_In in H; vm_compute in H.
  all: repeat (destruct H as [H|H]; [discriminate H|]); exact H.
Qed.

(** C10.  On a readable state file [get_processed_videos] returns the set
    of the stripped lines of the file: an identifier belongs to it exactly
    when some line strips to it, the set lists no identifier twice, and no
    identifier in it begins or ends with white space. *)
Theorem get_processed_videos_set_of_stripped_lines :
  forall (w : bool) (c : str) sm out tr,
  exists ids,
    get_processed_videos (State (File true w c) sm out tr)
    = (Returned ids, State (File true w c) sm out (tr ++ [EvLoad]))
    /\ (forall x, x ∈ ids <-> exists line, line ∈ file_lines c /\ x = strip line)
    /\ NoDup (elements ids)
    /\ (forall x, x ∈ ids ->
          strip x = x
          /\ (forall a, head x = Some a -> isspace a = false)
          /\ (forall a, last x = Some a -> isspace a = false)).
Proof.
  intros w c sm out tr. exists (ids_of_text c).
  split; [reflexivity|].
  assert (Hin : forall x, x ∈ ids_of_text c <->
                          exists line, line ∈ file_lines c /\ x = strip line).
  { intros x. unfold ids_of_text, stripped_lines.
    rewrite elem_of_list_to_set, list_elem_of_fmap. naive_solver. }
  split; [exact Hin|]. split; [apply NoDup_elements|].
  intros x (line & _ & ->)%Hin.
  split; [apply strip_idemp|].
  split; intros a; [apply strip_head | apply strip_last].
Qed.

Lemma get_processed_videos_set_of_stripped_lines_witness :
  exists ids,
    get_processed_videos
      (State (File true true
                (py " v1 " ++ [LF] ++ py "v1" ++ [CR; LF; 9] ++ py "v1"))
             (Dir ∅) [] [])
    = (Returned ids,
       State (File true true
                (py " v1 " ++ [LF] ++ py "v1" ++ [CR; LF; 9] ++ py "v1"))
             (Dir ∅) [] [EvLoad])
    /\ elements ids = [py "v1"].
Proof.
  destruct (get_processed_videos_set_of_stripped_lines true
              (py " v1 " ++ [LF] ++ py "v1" ++ [CR; LF; 9] ++ py "v1")
              (Dir ∅) [] []) as (ids & Hrun & _).
  exists ids. split; [exact Hrun|].
  injection Hrun as <-. vm_compute. reflexivity.
Defined.

(** ** The credential *)

(** C8 as stated fails in its second half: a key that is present in the
    environment but empty takes the error branch. *)
Lemma api_key_counterexample :
  getenv {[GEMINI_API_KEY := []]} GEMINI_API_KEY = Some []
  /\ forall w s,
       script {[GEMINI_API_KEY := []]} w s
       = (Raised (ValueError missing_key_message), s).
Proof.
  assert (H : getenv {[GEMINI_API_KEY := []]} GEMINI_API_KEY = Some []).
  { unfold getenv. apply lookup_singleton_eq. }
  split; [exact H|]. intros w s. unfold script, load_api_key.
  rewrite H. reflexivity.
Qed.

(** C8, as the code has it.  When the key is absent from the environment,
    or present and empty, running the module raises [ValueError] and
    nothing else has happened: no line is printed, no call has left the
    process, the disk is as it was.  When the key is present and not empty
    the check returns it and the run is that of [main]. *)
Theorem api_key_check (environ : gmap str str) (w : world) (s : state) :
  (getenv environ GEMINI_API_KEY = None
   \/ getenv environ GEMINI_API_KEY = Some [] ->
   script environ w s = (Raised (ValueError missing_key_message), s))
  /\ (forall k, getenv environ GEMINI_API_KEY = Some k -> k <> [] ->
        load_api_key environ = Returned k
        /\ script environ w s = main w s).
Proof.
  unfold script, load_api_key. split.
  - intros [-> | ->]; reflexivity.
  - intros k -> Hk. destruct k; [done|]. done.
Qed.

Lemma api_key_check_witness :
  script ∅ demo_world first_run
  = (Raised (ValueError missing_key_message), first_run)
  /\ load_api_key {[GEMINI_API_KEY := py "k"]} = Returned (py "k").
Proof.
  split.
  - apply (proj1 (api_key_check ∅ demo_world first_run)).
    left. apply lookup_empty.
  - apply (proj2 (api_key_check {[GEMINI_API_KEY := py "k"]}
                    demo_world first_run) (py "k")).
    + apply lookup_singleton_eq.
    + discriminate.
Defined.

(** ** The service wrappers *)

Section Wrappers.

Variable w : world.

Lemma get_transcript_eq v s :
  get_transcript w v s
  = match api_get_transcript w v with
    | Returned transcript_list =>
        (Returned (Some (join (py " ") transcript_list)),
         State (processed_videos_file s) (summaries s) (stdout s)
               (trace s ++ [EvTranscript v]))
    | Raised e =>
        (Returned None,
         State (processed_videos_file s) (summaries s)
               (stdout s ++ [transcript_error v e])
               (trace s ++ [EvTranscript v]))
    end.
Proof.
  unfold get_transcript, bind, emit.
  destruct (api_get_transcript w v); reflexivity.
Qed.

Lemma summarize_text_eq transcript title s :
  summarize_text w transcript title s
  = let p := final_prompt transcript title in
    match model_generate_content w p with
    | Returned text =>
        (Returned (Some text),
         State (processed_videos_file s) (summaries s) (stdout s)
               (trace s ++ [EvGenerate p]))
    | Raised e =>
        (Returned None,
         State (processed_videos_file s) (summaries s)
               (stdout s ++ [summarize_error e])
               (trace s ++ [EvGenerate p]))
    end.
Proof.
  unfold summarize_text, bind, emit. simpl.
  destruct (model_generate_content w _); reflexivity.
Qed.

(** What [process_entry] does, case by case. *)
Lemma process_entry_eq P e s :
  process_entry w P e s
  = let v := entry_id e in
    if decide (v ∈ P) then (Returned P, s)
    else
      let tr1 := trace s ++ [EvTranscript v] in
      match api_get_transcript w v with
      | Raised x =>
          (Returned P,
           State (processed_videos_file s) (summaries s)
                 (stdout s ++ [transcript_error v x]) tr1)
      | Returned transcript_list =>
          let p := final_prompt (join (py " ") transcript_list) (entry_title e) in
          let tr2 := tr1 ++ [EvGenerate p] in
          match model_generate_content w p with
          | Raised x =>
              (Returned P,
               State (processed_videos_file s) (summaries s)
                     (stdout s ++ [summarize_error x]) tr2)
          | Returned text =>
              let name := sanitize_filename (entry_title e) in
              let s2 := State (processed_videos_file s) (summaries s)
                              (stdout s) tr2 in
              match summaries s with
              | Dir files =>
                  if can_write_summary w name then
                    let sm := Dir (<[name := text]> files) in
                    let tr3 := tr2 ++ [EvArtifact name text] in
                    match append_text (processed_videos_file s)
                            (record_line v) with
                    | Returned n' =>
                        (Returned ({[v]} ∪ P),
                         State n' sm (stdout s) (tr3 ++ [EvRecord v]))
                    | Raised x =>
                        (Raised x,
                         State (touched (processed_videos_file s)) sm
                               (stdout s) tr3)
                    end
                  else (Raised (write_failed name), s2)
              | NoDir _ | NotDir => (Raised (write_failed name), s2)
              end
          end
      end.
Proof.
  unfold process_entry. simpl. case_decide; [reflexivity|].
  unfold bind at 1. rewrite get_transcript_eq.
  destruct (api_get_transcript w (entry_id e)); [|reflexivity].
  unfold bind at 1. rewrite summarize_text_eq. simpl.
  destruct (model_generate_content w _); [|reflexivity].
  unfold bind at 1. unfold write_summary. simpl.
  destruct (summaries s) as [| |files]; [reflexivity..|].
  destruct (can_write_summary w _); [|reflexivity].
  unfold bind. rewrite save_processed_video_eq. simpl.
  destruct (append_text _ _); reflexivity.
Qed.

End Wrappers.

(** ** One run *)

Section Run.

Variable w : world.
Variable all : list entry.

Lemma records_of_app t1 t2 :
  records_of (t1 ++ t2) = records_of t1 ++ records_of t2.
Proof. apply omap_app. Qed.

Lemma record_after_write_app t1 t2 :
  record_after_write w all t1 -> record_after_write w all t2 ->
  record_after_write w all (t1 ++ t2).
Proof.
  induction 1 as [|ev t Hev _ IH|e c t He Hc _ IH]; intros H2; simpl.
  - exact H2.
  - apply raw_other; [exact Hev|by apply IH].
  - apply raw_pair; [exact He|exact Hc|by apply IH].
Qed.

Lemma store_after_refl {A} n (r : outcome A) : store_after n r n.
Proof. by left. Qed.

Lemma run_effect_nil P s : run_effect w all [] P s (Returned P) s [].
Proof.
  split; simpl.
  - by rewrite app_nil_r.
  - constructor.
  - eexists. split; [reflexivity|apply store_after_refl].
  - done.
  - intros v Hv. by apply elem_of_nil in Hv.
  - intros v Hv. by apply elem_of_nil in Hv.
  - intros P' [= <-]. split; [by rewrite (left_id_L ∅ (∪))|].
    intros e He. by apply elem_of_nil in He.
Qed.

Lemma run_effect_seq es1 es2 P P1 s s1 s2 r t1 t2 :
  run_effect w all es1 P s (Returned P1) s1 t1 ->
  run_effect w all es2 P1 s1 r s2 t2 ->
  run_effect w all (es1 ++ es2) P s r s2 (t1 ++ t2).
Proof.
  intros [Ht1 Ho1 Hs1 Hdir1 Hr1 Hf1 Hd1] [Ht2 Ho2 Hs2 Hdir2 Hr2 Hf2 Hd2].
  destruct (Hd1 P1 eq_refl) as [HP1 He1].
  split.
  - by rewrite Ht2, Ht1, app_assoc.
  - by apply record_after_write_app.
  - destruct Hs1 as (n1 & Hn1 & <-%store_after_returned).
    destruct Hs2 as (n2 & Hn2 & Ha2). exists n2. split; [|exact Ha2].
    by rewrite records_of_app, append_records_app, Hn1.
  - auto.
  - intros v. rewrite records_of_app, elem_of_app.
    intros [Hv|Hv]; [by apply Hr1|].
    destruct (Hr2 v Hv) as [Hn Hex]. split; [|exact Hex].
    rewrite HP1 in Hn. set_solver.
  - intros v. rewrite elem_of_app.
    intros [Hv|Hv]; [by apply Hf1|].
    specialize (Hf2 v Hv). rewrite HP1 in Hf2. set_solver.
  - intros P' HP'. destruct (Hd2 P' HP') as [-> He2]. split.
    + rewrite HP1, records_of_app, list_to_set_app_L. set_solver.
    + intros e. rewrite elem_of_app. intros [He|He]; [|by apply He2].
      destruct (He1 e He) as [Hin|Hnone]; [left|by right].
      set_solver.
Qed.

Lemma run_effect_abort es1 es2 P s s1 x t :
  run_effect w all es1 P s (Raised x) s1 t ->
  run_effect w all (es1 ++ es2) P s (Raised x) s1 t.
Proof. intros [Ht Ho Hs Hdir Hr Hf Hd]. split; try done. Qed.

(** An event that is neither a record nor a transcript request may come
    first. *)
Lemma run_effect_after ev es P s s1 r s' t :
  recorded ev = None ->
  (forall v, ev <> EvTranscript v) ->
  processed_videos_file s1 = processed_videos_file s ->
  (is_dir (summaries s) = true -> is_dir (summaries s1) = true) ->
  trace s1 = trace s ++ [ev] ->
  run_effect w all es P s1 r s' t ->
  run_effect w all es P s r s' (ev :: t).
Proof.
  intros Hev Hne Hfile Hsm Htr [Ht Ho Hs Hdir Hr Hf Hd].
  assert (Hrec : records_of (ev :: t) = records_of t).
  { unfold records_of. simpl. by rewrite Hev. }
  split; rewrite ?Hrec.
  - rewrite Ht, Htr, <- app_assoc. reflexivity.
  - by apply raw_other.
  - by rewrite <- Hfile.
  - auto.
  - exact Hr.
  - intros v [Heq|Hv]%elem_of_cons; [by destruct (Hne v)|by apply Hf].
  - exact Hd.
Qed.

Lemma record_after_write_quiet t :
  records_of t = [] -> record_after_write w all t.
Proof.
  induction t as [|ev t IH]; [constructor|].
  unfold records_of. simpl. destruct (recorded ev) eqn:Hev; [discriminate|].
  intros H. apply raw_other; [exact Hev|by apply IH].
Qed.

(** A step that records nothing. *)
Lemma run_effect_skip e P s r s' t :
  trace s' = trace s ++ t ->
  records_of t = [] ->
  store_after (processed_videos_file s) r (processed_videos_file s') ->
  (is_dir (summaries s) = true -> is_dir (summaries s') = true) ->
  (forall v, EvTranscript v ∈ t -> v ∉ P) ->
  (forall P', r = Returned P' ->
              P' = P /\ (entry_id e ∈ P \/ summary_of w e = None)) ->
  run_effect w all [e] P s r s' t.
Proof.
  intros Ht Hrec Hst Hdir Hf Hd. split; rewrite ?Hrec; simpl.
  - exact Ht.
  - by apply record_after_write_quiet.
  - eexists. split; [reflexivity|exact Hst].
  - exact Hdir.
  - intros v Hv. by apply elem_of_nil in Hv.
  - exact Hf.
  - intros P' [-> H]%Hd. split; [by rewrite (left_id_L ∅ (∪))|].
    intros e' ->%list_elem_of_singleton. exact H.
Qed.

Lemma process_entry_effect P e s r s' :
  e ∈ all ->
  process_entry w P e s = (r, s') ->
  exists t, run_effect w all [e] P s r s' t.
Proof.
  intros He. rewrite process_entry_eq. simpl.
  case_decide as Hin.
  { intros [= <- <-]. exists [].
    apply run_effect_skip; try done.
    - by rewrite app_nil_r.
    - apply store_after_refl.
    - intros v Hv. by apply elem_of_nil in Hv.
    - intros P' [= <-]. by auto. }
  assert (Hfetch : forall t',
    (forall v, EvTranscript v ∈ t' -> False) ->
    forall v, EvTranscript v ∈ EvTranscript (entry_id e) :: t' -> v ∉ P).
  { intros t' Hno v [[= ->]|Hv]%elem_of_cons; [done|by destruct (Hno v)]. }
  destruct (api_get_transcript w (entry_id e)) as [items|x] eqn:Etr.
  2:{ intros [= <- <-]. exists [EvTranscript (entry_id e)].
      apply run_effect_skip; try done.
      - apply store_after_refl.
      - apply Hfetch. intros v Hv. by apply elem_of_nil in Hv.
      - intros P' [= <-]. split; [done|]. right.
        unfold summary_of. by rewrite Etr. }
  destruct (model_generate_content w _) as [text|x] eqn:Egen.
  2:{ intros [= <- <-]. eexists [EvTranscript (entry_id e); EvGenerate _].
      apply run_effect_skip; try done.
      - simpl. by rewrite <- app_assoc.
      - apply store_after_refl.
      - apply Hfetch. intros v Hv. set_solver.
      - intros P' [= <-]. split; [done|]. right.
        unfold summary_of. by rewrite Etr, Egen. }
  assert (Hsum : summary_of w e = Some text).
  { unfold summary_of. by rewrite Etr, Egen. }
  assert (Hstop : forall x,
    exists t,
      run_effect w all [e] P s (Raised x)
        (State (processed_videos_file s) (summaries s) (stdout s)
           ((trace s ++ [EvTranscript (entry_id e)])
            ++ [EvGenerate
                  (final_prompt (join (py " ") items) (entry_title e))])) t).
  { intros x. eexists [EvTranscript (entry_id e); EvGenerate _].
    apply run_effect_skip; try done.
    - simpl. by rewrite <- app_assoc.
    - apply store_after_refl.
    - apply Hfetch. intros v Hv. set_solver. }
  destruct (summaries s) as [| |files] eqn:Esm.
  1,2: intros [= <- <-]; apply Hstop.
  destruct (can_write_summary w _).
  2:{ intros [= <- <-]; apply Hstop. }
  destruct (append_text _ _) as [n'|x] eqn:Eapp.
  2:{ intros [= <- <-].
      eexists [EvTranscript (entry_id e); EvGenerate _; EvArtifact _ _].
      apply run_effect_skip; try done.
      - simpl. by rewrite <- !app_assoc.
      - simpl. by apply touched_inv with (t := record_line (entry_id e)).
      - apply Hfetch. intros v Hv. set_solver. }
  intros [= <- <-].
  eexists [EvTranscript (entry_id e); EvGenerate _; EvArtifact _ _;
           EvRecord (entry_id e)].
  split; simpl.
  - by rewrite <- !app_assoc.
  - apply raw_other; [done|]. apply raw_other; [done|].
    apply raw_pair; [exact He|exact Hsum|constructor].
  - exists n'. rewrite Eapp. split; [reflexivity|apply store_after_refl].
  - done.
  - intros v ->%list_elem_of_singleton. split; [done|].
    exists e. by rewrite Hsum.
  - intros v Hv. set_solver.
  - intros P' [= <-]. split; [set_solver|].
    intros e' ->%list_elem_of_singleton. left. set_solver.
Qed.

Lemma for_entries_effect es P s r s' :
  es ⊆ all ->
  for_entries w es P s = (r, s') ->
  exists t, run_effect w all es P s r s' t.
Proof.
  revert P s. induction es as [|e es IH]; intros P s Hall; simpl.
  - intros [= <- <-]. exists []. apply run_effect_nil.
  - unfold bind.
    destruct (process_entry w P e s) as [[P1|x] s1] eqn:E1.
    + apply process_entry_effect in E1 as [t1 H1]; [|set_solver].
      intros [t2 H2]%IH; [|set_solver].
      exists (t1 ++ t2). apply (run_effect_seq [e] es _ _ _ _ _ _ _ _ H1 H2).
    + apply process_entry_effect in E1 as [t1 H1]; [|set_solver].
      intros [= <- <-]. exists t1.
      apply (run_effect_abort [e] es), H1.
Qed.

Lemma check_channel_effect ch P s r s' :
  feedparser_parse w ch.2 ⊆ all ->
  check_channel w ch P s = (r, s') ->
  exists t, run_effect w all (feedparser_parse w ch.2) P s r s' t.
Proof.
  intros Hall. unfold check_channel, bind, print, emit. simpl.
  intros [t H]%for_entries_effect; [|done].
  exists (EvFeed ch.2 :: t).
  eapply run_effect_after; [done|done| | | |exact H]; done.
Qed.

Lemma for_channels_effect channels P s r s' :
  feed_entries w channels ⊆ all ->
  for_channels w channels P s = (r, s') ->
  exists t, run_effect w all (feed_entries w channels) P s r s' t.
Proof.
  revert P s. induction channels as [|ch chs IH]; intros P s; simpl.
  - intros _ [= <- <-]. exists []. apply run_effect_nil.
  - unfold feed_entries. simpl. fold (feed_entries w chs).
    intros Hall. unfold bind.
    destruct (check_channel w ch P s) as [[P1|x] s1] eqn:E1.
    + apply check_channel_effect in E1 as [t1 H1]; [|set_solver].
      intros [t2 H2]%IH; [|set_solver].
      exists (t1 ++ t2). eapply run_effect_seq; eassumption.
    + apply check_channel_effect in E1 as [t1 H1]; [|set_solver].
      intros [= <- <-]. exists t1. by apply run_effect_abort.
Qed.

End Run.

(** ** A pass that finds nothing to do *)

Section Quiet.

Variable w : world.

Lemma same_disk_refl P s : same_disk P s s.
Proof.
  split; [done|]. split; [done|]. exists [].
  split; [by rewrite app_nil_r|]. split; [constructor|].
  intros v Hv. by apply elem_of_nil in Hv.
Qed.

Lemma same_disk_trans P s1 s2 s3 :
  same_disk P s1 s2 -> same_disk P s2 s3 -> same_disk P s1 s3.
Proof.
  intros (Hf1 & Hs1 & t1 & Ht1 & Hq1 & Hv1) (Hf2 & Hs2 & t2 & Ht2 & Hq2 & Hv2).
  split; [congruence|]. split; [congruence|]. exists (t1 ++ t2).
  split; [by rewrite Ht2, Ht1, app_assoc|].
  split; [by apply Forall_app|].
  intros v [Hv|Hv]%elem_of_app; auto.
Qed.

Lemma process_entry_quiet P e s :
  entry_id e ∈ P \/ summary_of w e = None ->
  exists s', process_entry w P e s = (Returned P, s') /\ same_disk P s s'.
Proof.
  intros H. rewrite process_entry_eq. simpl.
  case_decide as Hin; [exists s; split; [done|apply same_disk_refl]|].
  destruct H as [H|H]; [done|]. unfold summary_of in H.
  destruct (api_get_transcript w (entry_id e)) as [items|x].
  - destruct (model_generate_content w _) as [text|x]; [discriminate|].
    eexists. split; [reflexivity|].
    split; [done|]. split; [done|]. eexists [_; _]. simpl.
    split; [by rewrite <- app_assoc|]. split; [by repeat constructor|].
    intros v Hv. set_solver.
  - eexists. split; [reflexivity|].
    split; [done|]. split; [done|]. eexists [_]. simpl.
    split; [done|]. split; [by repeat constructor|].
    intros v [= ->]%list_elem_of_singleton. done.
Qed.

Lemma for_entries_quiet es P s :
  (forall e, e ∈ es -> entry_id e ∈ P \/ summary_of w e = None) ->
  exists s', for_entries w es P s = (Returned P, s') /\ same_disk P s s'.
Proof.
  revert s. induction es as [|e es IH]; intros s H; simpl.
  - exists s. split; [done|apply same_disk_refl].
  - destruct (process_entry_quiet P e s) as (s1 & E1 & H1); [set_solver|].
    destruct (IH s1) as (s2 & E2 & H2); [set_solver|].
    exists s2. unfold bind. rewrite E1. split; [exact E2|].
    by apply (same_disk_trans P s s1 s2).
Qed.

Lemma for_channels_quiet channels P s :
  (forall e, e ∈ feed_entries w channels ->
             entry_id e ∈ P \/ summary_of w e = None) ->
  exists s', for_channels w channels P s = (Returned P, s')
             /\ same_disk P s s'.
Proof.
  revert s. induction channels as [|ch chs IH]; intros s; simpl.
  - intros _. exists s. split; [done|apply same_disk_refl].
  - unfold feed_entries. simpl. fold (feed_entries w chs). intros H.
    unfold bind at 1. unfold check_channel, bind, print, emit. simpl.
    match goal with
    | |- context [for_entries w ?es P ?s0] =>
        destruct (for_entries_quiet es P s0) as (s1 & E1 & H1);
        [set_solver|rewrite E1]
    end.
    destruct (IH s1) as (s2 & E2 & H2); [set_solver|].
    exists s2. split; [exact E2|].
    apply (same_disk_trans P s s1 s2); [|exact H2].
    destruct H1 as (Hf1 & Hs1 & t1 & Ht1 & Hq1 & Hv1). simpl in *.
    split; [done|]. split; [done|]. exists (EvFeed ch.2 :: t1).
    split; [by rewrite Ht1, <- app_assoc|].
    split; [by constructor|].
    intros v [Hv|Hv]%elem_of_cons; [discriminate|auto].
Qed.

End Quiet.

(** ** The whole run *)

Section Main.

Variable w : world.

Lemma main_on_eq channels s :
  main_on w channels s
  = let out := stdout s ++ [py "Starting process..."] in
    match make_dir (summaries s) with
    | Raised e =>
        (Raised e, State (processed_videos_file s) (summaries s) out (trace s))
    | Returned d =>
        let s0 := State (processed_videos_file s) d out (trace s ++ [EvLoad]) in
        match read_ids (processed_videos_file s) with
        | Raised e => (Raised e, s0)
        | Returned ids =>
            match for_channels w channels ids s0 with
            | (Returned _, s') => (Returned tt, s')
            | (Raised e, s') => (Raised e, s')
            end
        end
    end.
Proof.
  unfold main_on, mkdir_summaries.
  unfold bind at 1. unfold print at 1. unfold bind at 1. simpl.
  destruct (make_dir (summaries s)) as [d|e]; [|reflexivity].
  unfold bind at 1. rewrite get_processed_videos_eq. simpl.
  destruct (read_ids (processed_videos_file s)) as [ids|e]; [|reflexivity].
  unfold bind. destruct (for_channels w channels _ _) as [[]]; reflexivity.
Qed.

Lemma make_dir_dir d : is_dir d = true -> make_dir d = Returned d.
Proof. by destruct d. Qed.

Lemma make_dir_inv d d' : make_dir d = Returned d' -> is_dir d' = true.
Proof. destruct d as [[]| |]; simpl; by intros [= <-]. Qed.

(** A run begins by making the directory; it is then the run from the disk
    that has the directory. *)
Lemma main_on_mkdir channels s d :
  make_dir (summaries s) = Returned d ->
  main_on w channels s
  = main_on w channels
      (State (processed_videos_file s) d (stdout s) (trace s)).
Proof.
  intros Hd. rewrite !main_on_eq. simpl.
  by rewrite Hd, (make_dir_dir d (make_dir_inv _ _ Hd)).
Qed.

Lemma main_on_blocked channels s e :
  make_dir (summaries s) = Raised e ->
  main_on w channels s
  = (Raised e,
     State (processed_videos_file s) (summaries s)
           (stdout s ++ [py "Starting process..."]) (trace s)).
Proof. intros Hd. rewrite main_on_eq. simpl. by rewrite Hd. Qed.

Lemma main_on_readable channels s :
  is_dir (summaries s) = true ->
  readable_store (processed_videos_file s) = true ->
  main_on w channels s
  = match for_channels w channels (store_ids (processed_videos_file s))
            (State (processed_videos_file s) (summaries s)
                   (stdout s ++ [py "Starting process..."])
                   (trace s ++ [EvLoad])) with
    | (Returned _, s') => (Returned tt, s')
    | (Raised e, s') => (Raised e, s')
    end.
Proof.
  intros Hd Hr. rewrite main_on_eq. simpl.
  by rewrite (make_dir_dir _ Hd), (read_ids_readable _ Hr).
Qed.

Lemma main_on_unreadable channels s e :
  is_dir (summaries s) = true ->
  read_ids (processed_videos_file s) = Raised e ->
  main_on w channels s
  = (Raised e,
     State (processed_videos_file s) (summaries s)
           (stdout s ++ [py "Starting process..."]) (trace s ++ [EvLoad])).
Proof.
  intros Hd Hr. rewrite main_on_eq. simpl.
  by rewrite (make_dir_dir _ Hd), Hr.
Qed.

(** A run that stops before the first channel. *)
Lemma run_effect_stopped all es P s e s' t :
  trace s' = trace s ++ t ->
  records_of t = [] ->
  (forall v, EvTranscript v ∉ t) ->
  processed_videos_file s' = processed_videos_file s ->
  (is_dir (summaries s) = true -> is_dir (summaries s') = true) ->
  run_effect w all es P s (Raised e) s' t.
Proof.
  intros Ht Hrec Hno Hf Hd. split; rewrite ?Hrec; simpl; try done.
  - by apply record_after_write_quiet.
  - eexists. split; [reflexivity|]. rewrite Hf. by left.
  - intros v Hv. by apply elem_of_nil in Hv.
  - intros v Hv. by destruct (Hno v).
Qed.

Lemma main_on_effect channels s r s' :
  main_on w channels s = (r, s') ->
  let all := feed_entries w channels in
  exists r0 t,
    run_effect w all all (store_ids (processed_videos_file s)) s r0 s' t
    /\ match r with
       | Returned _ =>
           readable_store (processed_videos_file s) = true
           /\ exists P', r0 = Returned P'
       | Raised e => r0 = Raised e
       end.
Proof.
  rewrite main_on_eq. simpl.
  destruct (make_dir (summaries s)) as [d|e] eqn:Ed.
  2:{ intros [= <- <-]. exists (Raised e), []. split; [|done].
      apply run_effect_stopped; simpl; try done.
      - by rewrite app_nil_r.
      - intros v Hv. by apply elem_of_nil in Hv. }
  apply make_dir_inv in Ed.
  destruct (readable_store (processed_videos_file s)) eqn:Hr.
  2:{ destruct (read_ids_unreadable _ Hr) as [e ->].
      intros [= <- <-]. exists (Raised e), [EvLoad]. split; [|done].
      apply run_effect_stopped; simpl; try done.
      intros v [= ]%list_elem_of_singleton. }
  rewrite (read_ids_readable _ Hr).
  set (s0 := State _ _ _ _).
  destruct (for_channels w channels _ s0) as [r0 s1] eqn:E.
  apply (for_channels_effect w (feed_entries w channels)) in E as [t Ht];
    [|done].
  intros Heq. exists r0, (EvLoad :: t). split.
  - assert (s1 = s') as <- by (destruct r0; congruence).
    eapply run_effect_after; [done|done| | | |exact Ht]; done.
  - destruct r0; injection Heq as <- <-; eauto.
Qed.

Lemma main_on_records channels s r s' :
  main_on w channels s = (r, s') ->
  let all := feed_entries w channels in
  exists r0 t,
    run_effect w all all (store_ids (processed_videos_file s)) s r0 s' t
    /\ exists n',
         append_records (processed_videos_file s) (records_of t) = Returned n'
         /\ store_after n' r (processed_videos_file s').
Proof.
  intros Hrun. simpl.
  destruct (main_on_effect channels s r s' Hrun) as (r0 & t & Heff & Hr).
  exists r0, t. split; [exact Heff|].
  destruct (eff_store _ _ _ _ _ _ _ _ Heff) as (n' & Hn' & Hafter).
  exists n'. split; [exact Hn'|].
  destruct Hafter as [->|(-> & -> & msg & ->)]; [by left|].
  destruct r as [|e]; [by destruct Hr as (_ & P' & [=])|].
  injection Hr as <-. right. by eauto.
Qed.

Lemma main_on_quiet channels s :
  is_dir (summaries s) = true ->
  readable_store (processed_videos_file s) = true ->
  (forall e, e ∈ feed_entries w channels ->
             entry_id e ∈ store_ids (processed_videos_file s)
             \/ summary_of w e = None) ->
  exists s', main_on w channels s = (Returned tt, s')
             /\ same_disk (store_ids (processed_videos_file s)) s s'.
Proof.
  intros Hd Hr H. rewrite main_on_readable by done.
  set (s0 := State _ _ _ _).
  destruct (for_channels_quiet w channels
              (store_ids (processed_videos_file s)) s0 H) as (s1 & E & H1).
  exists s1. rewrite E. split; [reflexivity|].
  destruct H1 as (Hf1 & Hs1 & t1 & Ht1 & Hq1 & Hv1). simpl in *.
  split; [done|]. split; [done|]. exists (EvLoad :: t1).
  split; [by rewrite Ht1, <- app_assoc|].
  split; [by constructor|].
  intros v [Hv|Hv]%elem_of_cons; [discriminate|auto].
Qed.

Lemma record_after_write_inv all t :
  record_after_write w all t ->
  forall before v after,
    t = before ++ EvRecord v :: after ->
    exists before' e c,
      before = before' ++ [EvArtifact (sanitize_filename (entry_title e)) c]
      /\ e ∈ all /\ entry_id e = v /\ summary_of w e = Some c.
Proof.
  induction 1 as [|ev t Hev _ IH|e c t He Hc _ IH]; intros before v after.
  - by destruct before.
  - destruct before as [|b before]; simpl.
    + intros [= -> ->]. discriminate.
    + intros [= <- Ht]. destruct (IH _ _ _ Ht) as (b' & e & c & -> & H).
      by exists (ev :: b'), e, c.
  - destruct before as [|b1 [|b2 before]]; simpl.
    + discriminate.
    + intros [= <- <- _]. by exists [], e, c.
    + intros [= <- <- Ht]. destruct (IH _ _ _ Ht) as (b' & e' & c' & -> & H).
      by exists (EvArtifact (sanitize_filename (entry_title e)) c
                 :: EvRecord (entry_id e) :: b'), e', c'.
Qed.

End Main.

(** ** The state store across a run *)

Section Across.

Variable w : world.

Lemma elem_of_records_of v t : v ∈ records_of t <-> EvRecord v ∈ t.
Proof.
  unfold records_of. rewrite list_elem_of_omap. split.
  - intros (ev & Hev & Hrec). destruct ev; try discriminate.
    by injection Hrec as ->.
  - intros H. by exists (EvRecord v).
Qed.

Lemma main_on_store channels s r s' :
  main_on w channels s = (r, s') ->
  sound_store (processed_videos_file s) = true ->
  (forall e, e ∈ feed_entries w channels -> clean_id (entry_id e) = true) ->
  exists r0 t,
    run_effect w (feed_entries w channels) (feed_entries w channels)
      (store_ids (processed_videos_file s)) s r0 s' t
    /\ store_ids (processed_videos_file s')
       = list_to_set (records_of t) ∪ store_ids (processed_videos_file s)
    /\ (readable_store (processed_videos_file s) = true ->
        readable_store (processed_videos_file s') = true)
    /\ match r with
       | Returned _ =>
           readable_store (processed_videos_file s) = true
           /\ exists P', r0 = Returned P'
       | Raised e => r0 = Raised e
       end.
Proof.
  intros Hrun Hsound Hclean.
  destruct (main_on_effect w channels s r s' Hrun) as (r0 & t & Heff & Hr).
  exists r0, t. split; [exact Heff|].
  assert (Hrecs : Forall (fun v => clean_id v = true) (records_of t)).
  { apply Forall_forall. intros v Hv.
    destruct (eff_recorded _ _ _ _ _ _ _ _ Heff v Hv)
      as (_ & e & He & <- & _).
    by apply Hclean. }
  destruct (eff_store _ _ _ _ _ _ _ _ Heff) as (n' & Hn' & Hafter).
  destruct (append_records_ids _ _ _ Hsound Hrecs Hn') as (Hids & _ & Hread).
  destruct (store_after_inv _ _ _ Hafter) as (-> & _ & ->). done.
Qed.

End Across.


(** ** A run taken up again *)

Section Again.

Variable w : world.
Variable all : list entry.
Hypothesis all_clean : forall e, e ∈ all -> clean_id (entry_id e) = true.

Lemma run_effect_store es P s r s1 t :
  run_effect w all es P s r s1 t ->
  sound_store (processed_videos_file s) = true ->
  store_ids (processed_videos_file s1)
  = list_to_set (records_of t) ∪ store_ids (processed_videos_file s)
  /\ sound_store (processed_videos_file s1) = true
  /\ (readable_store (processed_videos_file s) = true ->
      readable_store (processed_videos_file s1) = true).
Proof.
  intros Heff Hsound.
  assert (Hrecs : Forall (fun v => clean_id v = true) (records_of t)).
  { apply Forall_forall. intros v Hv.
    destruct (eff_recorded _ _ _ _ _ _ _ _ Heff v Hv)
      as (_ & e & He & <- & _).
    by apply all_clean. }
  destruct (eff_store _ _ _ _ _ _ _ _ Heff) as (n' & Hn' & Hafter).
  destruct (store_after_inv _ _ _ Hafter) as (-> & -> & ->).
  apply (append_records_ids _ _ _ Hsound Hrecs Hn').
Qed.

Lemma records_of_quiet t :
  Forall (fun ev => quiet ev = true) t -> records_of t = [].
Proof.
  induction 1 as [|ev t Hev _ IH]; [reflexivity|].
  change (records_of (ev :: t))
    with (match recorded ev with
          | Some v => v :: records_of t
          | None => records_of t
          end).
  rewrite IH. by destruct ev.
Qed.

Lemma replays_process_entry e : replays (fun P => process_entry w P e).
Proof.
  intros P s x s1 s'. rewrite !process_entry_eq. simpl.
  case_decide as Hin; [discriminate|].
  destruct (api_get_transcript w (entry_id e)) as [items|]; [|discriminate].
  destruct (model_generate_content w _) as [text|]; [|discriminate].
  assert (Hstop : forall sm,
    summaries s = sm ->
    (Raised (write_failed (sanitize_filename (entry_title e))) : outcome (gset str),
     State (processed_videos_file s) (summaries s) (stdout s)
       ((trace s ++ [EvTranscript (entry_id e)])
        ++ [EvGenerate (final_prompt (join (py " ") items) (entry_title e))]))
    = (Raised x, s1) ->
    P = store_ids (processed_videos_file s) ->
    processed_videos_file s' = processed_videos_file s1 ->
    summaries s' = summaries s1 ->
    (entry_id e ∉ store_ids (processed_videos_file s1))
    /\ processed_videos_file s' = processed_videos_file s
    /\ summaries s' = sm).
  { intros sm <- [= <- <-] -> Hf Hs. done. }
  destruct (summaries s) as [cr| |files] eqn:Esm.
  1,2: intros E HP _ Hf Hs;
    destruct (Hstop _ eq_refl E HP Hf Hs) as (Hin' & Hf' & Hs');
    injection E as <- <-;
    rewrite decide_False by done; rewrite Hs';
    (eexists; split; [reflexivity|]); simpl;
    (split; [done|]); (split; [done|]);
    eexists [_; _]; (split; [by rewrite <- !app_assoc|]);
    (split; [reflexivity|]); intros v Hv; set_solver.
  destruct (can_write_summary w _).
  - destruct (append_text (processed_videos_file s) _) as [|x'] eqn:Eapp;
      [discriminate|].
    intros [= -> <-] -> _. simpl. intros Hf Hs.
    rewrite touched_ids. rewrite decide_False by done.
    rewrite Hs, Hf, touched_append, Eapp.
    eexists. split; [reflexivity|]. simpl.
    split; [by rewrite touched_idemp|].
    split; [by rewrite insert_insert_eq|].
    eexists [_; _; _]. split; [by rewrite <- !app_assoc|].
    split; [reflexivity|]. intros v Hv. set_solver.
  - intros E HP _ Hf Hs.
    destruct (Hstop _ eq_refl E HP Hf Hs) as (Hin' & Hf' & Hs').
    injection E as <- <-.
    rewrite decide_False by done. rewrite Hs'.
    eexists. split; [reflexivity|]. simpl.
    split; [done|]. split; [done|].
    eexists [_; _]. split; [by rewrite <- !app_assoc|].
    split; [reflexivity|]. intros v Hv. set_solver.
Qed.

(** Two passes in a row: when the second is stopped, the first finds
    nothing to do the next time. *)
Lemma replays_seq (m1 m2 : gset str -> M (gset str)) es1 es2 :
  (forall P s r s1, m1 P s = (r, s1) ->
     exists t, run_effect w all es1 P s r s1 t) ->
  (forall P s,
     (forall e, e ∈ es1 -> entry_id e ∈ P \/ summary_of w e = None) ->
     exists s', m1 P s = (Returned P, s') /\ same_disk P s s') ->
  (forall P s r s1, m2 P s = (r, s1) ->
     exists t, run_effect w all es2 P s r s1 t) ->
  replays m1 -> replays m2 ->
  replays (fun P => P1 <- m1 P ;; m2 P1).
Proof.
  intros Heff1 Hquiet1 Heff2 Hre1 Hre2 P s x s1 s'. unfold bind.
  destruct (m1 P s) as [[P1|x1] sa] eqn:E1.
  - intros E2 HP Hsound Hf Hs.
    destruct (Heff1 _ _ _ _ E1) as [t1 Ht1].
    destruct (eff_done _ _ _ _ _ _ _ _ Ht1 P1 eq_refl) as [HP1 Hdone].
    destruct (run_effect_store _ _ _ _ _ _ Ht1 Hsound) as (Hids1 & Hsound1 & _).
    assert (HPa : P1 = store_ids (processed_videos_file sa)).
    { by rewrite Hids1, <- HP. }
    destruct (Heff2 _ _ _ _ E2) as [t2 Ht2].
    destruct (run_effect_store _ _ _ _ _ _ Ht2 Hsound1) as (Hids2 & _ & _).
    set (Q := store_ids (processed_videos_file s1)) in *.
    destruct (Hquiet1 Q s') as (s'a & E1' & Hf' & Hs' & tq & Htq & Hq & Hvq).
    { intros e He. destruct (Hdone e He) as [Hin|Hnone]; [left|by right].
      rewrite Hids2, <- HPa. set_solver. }
    destruct (Hre2 P1 sa x s1 s'a E2 HPa Hsound1) as
      (s'' & E2' & Hf'' & Hs'' & ta & Hta & Hra & Hva); [congruence..|].
    exists s''. rewrite E1'. split; [exact E2'|].
    split; [congruence|]. split; [congruence|].
    exists (tq ++ ta). split; [by rewrite Hta, Htq, app_assoc|].
    split; [by rewrite records_of_app, (records_of_quiet tq), Hra|].
    intros v [Hv|Hv]%elem_of_app; auto.
  - intros [= -> ->] HP Hsound Hf Hs.
    destruct (Hre1 P s x s1 s' E1 HP Hsound Hf Hs) as (s'' & E1' & H).
    exists s''. by rewrite E1'.
Qed.

Lemma replays_for_entries es : es ⊆ all -> replays (for_entries w es).
Proof.
  induction es as [|e es IH]; intros Hall.
  - intros P s x s1 s'. discriminate.
  - apply (replays_seq (fun P => process_entry w P e) (for_entries w es)
             [e] es).
    + intros P s r s1. apply process_entry_effect. set_solver.
    + intros P s H. apply process_entry_quiet, H. set_solver.
    + intros P s r s1. apply for_entries_effect. set_solver.
    + apply replays_process_entry.
    + apply IH. set_solver.
Qed.

Lemma check_channel_quiet ch P s :
  (forall e, e ∈ feedparser_parse w ch.2 ->
             entry_id e ∈ P \/ summary_of w e = None) ->
  exists s', check_channel w ch P s = (Returned P, s') /\ same_disk P s s'.
Proof.
  intros H. unfold check_channel, bind, print, emit. simpl.
  match goal with
  | |- context [for_entries w ?es P ?s0] =>
      destruct (for_entries_quiet w es P s0 H) as (s1 & E1 & H1)
  end.
  exists s1. split; [exact E1|].
  destruct H1 as (Hf1 & Hs1 & t1 & Ht1 & Hq1 & Hv1). simpl in *.
  split; [done|]. split; [done|]. exists (EvFeed ch.2 :: t1).
  split; [by rewrite Ht1, <- app_assoc|].
  split; [by constructor|].
  intros v [Hv|Hv]%elem_of_cons; [discriminate|auto].
Qed.

Lemma replays_check_channel ch :
  feedparser_parse w ch.2 ⊆ all -> replays (check_channel w ch).
Proof.
  intros Hall P s x s1 s'. unfold check_channel, bind, print, emit. simpl.
  intros E HP Hsound Hf Hs.
  destruct (replays_for_entries _ Hall _ _ _ _
              (State (processed_videos_file s') (summaries s')
                     (stdout s' ++ [[LF] ++ py "Checking channel: " ++ ch.1])
                     (trace s' ++ [EvFeed ch.2]))
              E HP Hsound Hf Hs)
    as (s'' & E' & Hf' & Hs' & t & Ht & Hr & Hv).
  exists s''. split; [exact E'|]. simpl in *.
  split; [done|]. split; [done|]. exists (EvFeed ch.2 :: t).
  split; [by rewrite Ht, <- app_assoc|]. split; [exact Hr|].
  intros v [Hv'|Hv']%elem_of_cons; [discriminate|auto].
Qed.

Lemma replays_for_channels channels :
  feed_entries w channels ⊆ all -> replays (for_channels w channels).
Proof.
  induction channels as [|ch chs IH].
  - intros _ P s x s1 s'. discriminate.
  - unfold feed_entries. simpl. fold (feed_entries w chs). intros Hall.
    apply (replays_seq (check_channel w ch) (for_channels w chs)
             (feedparser_parse w ch.2) (feed_entries w chs)).
    + intros P s r s1. apply check_channel_effect. set_solver.
    + intros P s. apply check_channel_quiet.
    + intros P s r s1. apply for_channels_effect. set_solver.
    + apply replays_check_channel. set_solver.
    + apply IH. set_solver.
Qed.

End Again.

Section Twice.

Variable w : world.

(** A second run from the disk the first one left, with the same answers
    of the services, ends as the first did and leaves that disk as it
    is. *)
Lemma main_on_again_dir channels s r s1 :
  is_dir (summaries s) = true ->
  (forall e, e ∈ feed_entries w channels -> clean_id (entry_id e) = true) ->
  sound_store (processed_videos_file s) = true ->
  main_on w channels s = (r, s1) ->
  exists s2 t2,
    main_on w channels s1 = (r, s2)
    /\ processed_videos_file s2 = processed_videos_file s1
    /\ summaries s2 = summaries s1
    /\ trace s2 = trace s1 ++ t2
    /\ records_of t2 = []
    /\ (r = Returned tt -> Forall (fun ev => quiet ev = true) t2)
    /\ (forall v, EvTranscript v ∈ t2 ->
                  v ∉ store_ids (processed_videos_file s1)).
Proof.
  intros Hd Hclean Hsound.
  destruct (readable_store (processed_videos_file s)) eqn:Hread.
  2:{ destruct (read_ids_unreadable _ Hread) as [e He].
      rewrite (main_on_unreadable w channels s e) by done.
      intros [= <- <-].
      eexists _, [EvLoad].
      rewrite (main_on_unreadable w channels _ e) by done. simpl.
      split; [reflexivity|]. split; [done|]. split; [done|].
      split; [done|]. split; [done|]. split; [discriminate|].
      intros v [= ]%list_elem_of_singleton. }
  rewrite main_on_readable by done.
  set (s0 := State _ _ _ _).
  destruct (for_channels w channels _ s0) as [r0 sa] eqn:E.
  destruct (for_channels_effect w (feed_entries w channels) channels
              _ _ _ _ (reflexivity _) E) as [t Ht].
  destruct (run_effect_store w _ Hclean _ _ _ _ _ _ Ht Hsound)
    as (Hids & Hsound1 & Hread1).
  specialize (Hread1 Hread).
  pose proof (eff_dir _ _ _ _ _ _ _ _ Ht Hd) as Hd1.
  destruct r0 as [P'|x]; intros [= <- <-].
  - destruct (eff_done _ _ _ _ _ _ _ _ Ht P' eq_refl) as [HP' Hall].
    simpl in Hids. rewrite <- Hids in HP'. subst P'.
    destruct (main_on_quiet w channels sa Hd1 Hread1 Hall)
      as (s2 & Hrun2 & Hf & Hs & t2 & Ht2 & Hq & Hv).
    exists s2, t2. split; [exact Hrun2|]. split; [exact Hf|].
    split; [exact Hs|]. split; [exact Ht2|].
    split; [by apply records_of_quiet|]. split; [done|]. exact Hv.
  - destruct (replays_for_channels w _ Hclean channels (reflexivity _)
                _ s0 x sa
                (State (processed_videos_file sa) (summaries sa)
                       (stdout sa ++ [py "Starting process..."])
                       (trace sa ++ [EvLoad]))
                E eq_refl Hsound eq_refl eq_refl)
      as (s2 & E' & Hf & Hs & t2 & Ht2 & Hr2 & Hv).
    exists s2, (EvLoad :: t2). rewrite main_on_readable by done.
    rewrite E'. simpl in *. split; [reflexivity|].
    split; [done|]. split; [done|].
    split; [by rewrite Ht2, <- app_assoc|]. split; [exact Hr2|].
    split; [discriminate|].
    intros v [Hv'|Hv']%elem_of_cons; [discriminate|auto].
Qed.

Lemma main_on_again channels s r s1 :
  (forall e, e ∈ feed_entries w channels -> clean_id (entry_id e) = true) ->
  sound_store (processed_videos_file s) = true ->
  main_on w channels s = (r, s1) ->
  exists s2 t2,
    main_on w channels s1 = (r, s2)
    /\ processed_videos_file s2 = processed_videos_file s1
    /\ summaries s2 = summaries s1
    /\ trace s2 = trace s1 ++ t2
    /\ records_of t2 = []
    /\ (r = Returned tt -> Forall (fun ev => quiet ev = true) t2)
    /\ (forall v, EvTranscript v ∈ t2 ->
                  v ∉ store_ids (processed_videos_file s1)).
Proof.
  intros Hclean Hsound.
  destruct (make_dir (summaries s)) as [d|e] eqn:Ed.
  - rewrite (main_on_mkdir w channels s d Ed).
    apply main_on_again_dir; [exact (make_dir_inv _ _ Ed)|done|done].
  - rewrite (main_on_blocked w channels s e Ed). intros [= <- <-].
    eexists _, []. rewrite (main_on_blocked w channels _ e) by exact Ed.
    simpl. split; [reflexivity|]. split; [done|]. split; [done|].
    split; [by rewrite app_nil_r|]. split; [done|]. split; [discriminate|].
    intros v Hv. by apply elem_of_nil in Hv.
Qed.

End Twice.

Section Skipped.

Variable w : world.

Lemma get_processed_videos_ids s ids s' :
  get_processed_videos s = (Returned ids, s') ->
  ids = store_ids (processed_videos_file s).
Proof.
  rewrite get_processed_videos_eq. simpl.
  destruct (processed_videos_file s) as [| |[] wr c|[] wr err]; simpl;
    congruence.
Qed.

(** A video none of whose entries yields a summary is not recorded by the
    run; on clean identifiers and a sound state file it is not in the store
    afterwards unless it was before. *)
Lemma main_on_unrecorded channels s r s' v :
  main_on w channels s = (r, s') ->
  (forall e, e ∈ feed_entries w channels -> entry_id e = v ->
             summary_of w e = None) ->
  exists t,
    trace s' = trace s ++ t
    /\ (EvRecord v ∉ t)
    /\ (exists n',
          append_records (processed_videos_file s) (records_of t)
          = Returned n'
          /\ store_after n' r (processed_videos_file s'))
    /\ (v ∉ store_ids (processed_videos_file s) ->
        sound_store (processed_videos_file s) = true ->
        (forall e, e ∈ feed_entries w channels ->
                   clean_id (entry_id e) = true) ->
        (v ∉ store_ids (processed_videos_file s'))
        /\ forall ids s'',
             get_processed_videos s' = (Returned ids, s'') -> v ∉ ids).
Proof.
  intros Hrun Hfail.
  destruct (main_on_records w channels s r s' Hrun) as (r0 & t & Heff & Hst).
  assert (Hv : v ∉ records_of t).
  { intros Hv.
    destruct (eff_recorded _ _ _ _ _ _ _ _ Heff v Hv)
      as (_ & e & He & Hid & Hsome).
    rewrite (Hfail e He Hid) in Hsome. by destruct Hsome. }
  exists t. split; [apply (eff_trace _ _ _ _ _ _ _ _ Heff)|].
  split; [by rewrite <- elem_of_records_of|].
  split; [exact Hst|].
  intros Hold Hsound Hclean.
  destruct (run_effect_store w _ Hclean _ _ _ _ _ _ Heff Hsound)
    as (Hids & _).
  assert (Hnew : v ∉ store_ids (processed_videos_file s')).
  { rewrite Hids, elem_of_union, elem_of_list_to_set. tauto. }
  split; [exact Hnew|]. by intros ids s'' ->%get_processed_videos_ids.
Qed.

End Skipped.

(** ** The claims about a run *)

(** C1.  In every run of [main], whatever its outcome, each record of an
    identifier in the state file comes right after the successful write of
    the summary of a feed entry with that identifier; the state file
    changes by those records and by nothing else, but for the empty file
    that a record refused by the encoder has created; and a step of the
    loop that changes the state file leaves the summary of its entry on
    disk. *)
Theorem record_only_after_write
    (w : world) (s : state) (r : outcome unit) (s' : state) :
  main w s = (r, s') ->
  exists t,
    trace s' = trace s ++ t
    /\ (forall before v after,
          t = before ++ EvRecord v :: after ->
          exists before' e c,
            before = before' ++ [EvArtifact (sanitize_filename (entry_title e)) c]
            /\ e ∈ feed_entries w CHANNELS
            /\ entry_id e = v
            /\ summary_of w e = Some c)
    /\ (exists n',
          append_records (processed_videos_file s) (records_of t)
          = Returned n'
          /\ store_after n' r (processed_videos_file s'))
    /\ (forall P e s0 r0 s1,
          process_entry w P e s0 = (r0, s1) ->
          processed_videos_file s1 <> processed_videos_file s0 ->
          is_Some (summary_of w e)
          /\ summary_files (summaries s1) !! sanitize_filename (entry_title e)
             = summary_of w e).
Proof.
  intros Hrun.
  destruct (main_on_records w CHANNELS s r s' Hrun) as (r0 & t & Heff & Hst).
  exists t. split; [apply (eff_trace _ _ _ _ _ _ _ _ Heff)|].
  split; [apply record_after_write_inv, (eff_order _ _ _ _ _ _ _ _ Heff)|].
  split; [exact Hst|].
  intros P e s0 r1 s1. rewrite process_entry_eq. simpl.
  unfold summary_of.
  case_decide; [by intros [= <- <-]|].
  destruct (api_get_transcript w (entry_id e)); [|by intros [= <- <-]].
  destruct (model_generate_content w _); [|by intros [= <- <-]].
  destruct (summaries s0) as [| |files]; [by intros [= <- <-]..|].
  destruct (can_write_summary w _); [|by intros [= <- <-]].
  destruct (append_text _ _).
  all: intros [= <- <-] _; simpl; (split; [by eexists|]).
  all: apply lookup_insert_eq.
Qed.

Lemma record_only_after_write_witness :
  exists t,
    trace (main demo_world one_record).2 = trace one_record ++ t
    /\ records_of t = [py "v2"]
    /\ append_records (processed_videos_file one_record) (records_of t)
       = Returned (File true true (py "v1" ++ [LF] ++ py "v2" ++ [LF])).
Proof.
  destruct (record_only_after_write demo_world one_record
              (main demo_world one_record).1 (main demo_world one_record).2)
    as (t & Ht & _).
  { vm_compute. reflexivity. }
  exists t. split; [exact Ht|].
  assert (Hrec : records_of t = [py "v2"]).
  { change (records_of (trace one_record ++ t) = [py "v2"]).
    rewrite <- Ht. vm_compute. reflexivity. }
  split; [exact Hrec|]. rewrite Hrec. reflexivity.
Defined.

(** C6 as stated fails, in two ways.  The feed holds the identifiers b
    followed by a space, which is summarized, and b, whose transcript
    cannot be fetched; after the run the state file holds the line of the
    first, and the set loaded from it holds b.  And on a state file whose
    text is the letter v with no line feed, the record of the identifier 2
    makes the line v2, the identifier of a video whose transcript could
    not be fetched. *)
Lemma transcript_failure_counterexample :
  (api_get_transcript alias_world (py "b")
   = Raised (ServiceError (py "TranscriptsDisabled"))
   /\ (py "b" ∉ store_ids (processed_videos_file first_run))
   /\ (main alias_world first_run).1 = Returned tt
   /\ processed_videos_file (main alias_world first_run).2
      = File true true (py "b " ++ [LF])
   /\ exists ids,
        (get_processed_videos (main alias_world first_run).2).1 = Returned ids
        /\ py "b" ∈ ids)
  /\ (api_get_transcript joined_world (py "v2")
      = Raised (ServiceError (py "TranscriptsDisabled"))
      /\ (py "v2" ∉ store_ids (processed_videos_file half_line))
      /\ (main joined_world half_line).1 = Returned tt
      /\ processed_videos_file (main joined_world half_line).2
         = File true true (py "v2" ++ [LF])
      /\ exists ids,
           (get_processed_videos (main joined_world half_line).2).1
           = Returned ids
           /\ py "v2" ∈ ids).
Proof.
  split.
  - split; [reflexivity|]. split; [apply not_elem_of_empty|].
    split; [vm_compute; reflexivity|]. split; [vm_compute; reflexivity|].
    exists (ids_of_text (py "b " ++ [LF])).
    split; [vm_compute; reflexivity|].
    unfold ids_of_text. apply elem_of_list_to_set.
    vm_compute. constructor.
  - split; [reflexivity|].
    split.
    { simpl. unfold ids_of_text. rewrite elem_of_list_to_set.
      intros H. apply list_elem_of_In in H. vm_compute in H.
      destruct H as [H|[]]. discriminate H. }
    split; [vm_compute; reflexivity|]. split; [vm_compute; reflexivity|].
    exists (ids_of_text (py "v2" ++ [LF])).
    split; [vm_compute; reflexivity|].
    unfold ids_of_text. apply elem_of_list_to_set.
    vm_compute. constructor.
Qed.

(** C6, as the code has it.  When the transcript of a video cannot be
    fetched, [get_transcript] prints the error and returns [None], the
    step of the loop for an entry of that video returns with the disk and
    the in-memory set as they were, and the run appends no record of its
    identifier: the state file changes by the records of other identifiers
    alone, but for the empty file that a record refused by the encoder has
    created.  If moreover the identifier was not in the store before
    the run, every identifier of the feeds is free of white space at its
    ends and of line breaks, and the state file is missing, empty or ends
    in a line feed, the identifier is not in the store after the run. *)
Theorem transcript_failure_leaves_video_unrecorded
    (w : world) (s : state) (r : outcome unit) (s' : state)
    (v : str) (x : exn) :
  main w s = (r, s') ->
  api_get_transcript w v = Raised x ->
  (forall s0,
     get_transcript w v s0
     = (Returned None,
        State (processed_videos_file s0) (summaries s0)
              (stdout s0 ++ [transcript_error v x])
              (trace s0 ++ [EvTranscript v])))
  /\ (forall P e s0,
        entry_id e = v -> v ∉ P ->
        process_entry w P e s0
        = (Returned P,
           State (processed_videos_file s0) (summaries s0)
                 (stdout s0 ++ [transcript_error v x])
                 (trace s0 ++ [EvTranscript v])))
  /\ exists t,
       trace s' = trace s ++ t
       /\ (EvRecord v ∉ t)
       /\ (exists n',
             append_records (processed_videos_file s) (records_of t)
             = Returned n'
             /\ store_after n' r (processed_videos_file s'))
       /\ (v ∉ store_ids (processed_videos_file s) ->
           sound_store (processed_videos_file s) = true ->
           (forall e, e ∈ feed_entries w CHANNELS ->
                      clean_id (entry_id e) = true) ->
           (v ∉ store_ids (processed_videos_file s'))
           /\ forall ids s'',
                get_processed_videos s' = (Returned ids, s'') -> v ∉ ids).
Proof.
  intros Hrun Hx.
  split. { intros s0. by rewrite get_transcript_eq, Hx. }
  split.
  { intros P e s0 <- HP. rewrite process_entry_eq. simpl.
    rewrite decide_False by done. by rewrite Hx. }
  apply (main_on_unrecorded w CHANNELS s r s' v Hrun).
  intros e _ <-. unfold summary_of. by rewrite Hx.
Qed.

Lemma transcript_failure_leaves_video_unrecorded_witness :
  py "v3" ∉ store_ids (processed_videos_file (main demo_world one_record).2).
Proof.
  destruct (transcript_failure_leaves_video_unrecorded demo_world one_record
              (main demo_world one_record).1 (main demo_world one_record).2
              (py "v3") (ServiceError (py "TranscriptsDisabled")))
    as (_ & _ & t & _ & _ & _ & H).
  - vm_compute. reflexivity.
  - reflexivity.
  - apply H.
    + refine (bool_decide_unpack _ _). vm_compute. exact I.
    + reflexivity.
    + apply Forall_forall. refine (bool_decide_unpack _ _).
      vm_compute. exact I.
Defined.

(** C7 as stated fails, in three ways.  In one feed the video b followed
    by a space is summarized and the summary of the video b is refused;
    after the run the set loaded from the state file holds b.  On a state
    file whose text is the letter v with no line feed, the record of the
    identifier 2 makes the line v2, the identifier of a video whose
    summary was refused.  And when a feed holds the identifier v5 in two
    entries with the titles T1 and T2, and the summary is refused for T1
    and given for T2, the failure is printed and v5 is recorded all the
    same. *)
Lemma summary_failure_counterexample :
  (api_get_transcript alias_world' (py "b") = Returned [py "text"]
   /\ model_generate_content alias_world'
        (final_prompt (join (py " ") [py "text"]) (py "T2"))
      = Raised (ServiceError (py "quota exceeded"))
   /\ (py "b" ∉ store_ids (processed_videos_file first_run))
   /\ (main alias_world' first_run).1 = Returned tt
   /\ processed_videos_file (main alias_world' first_run).2
      = File true true (py "b " ++ [LF])
   /\ exists ids,
        (get_processed_videos (main alias_world' first_run).2).1
        = Returned ids
        /\ py "b" ∈ ids)
  /\ (api_get_transcript joined_world' (py "v2") = Returned [py "text"]
      /\ model_generate_content joined_world'
           (final_prompt (join (py " ") [py "text"]) (py "T2"))
         = Raised (ServiceError (py "quota exceeded"))
      /\ (py "v2" ∉ store_ids (processed_videos_file half_line))
      /\ (main joined_world' half_line).1 = Returned tt
      /\ processed_videos_file (main joined_world' half_line).2
         = File true true (py "v2" ++ [LF])
      /\ exists ids,
           (get_processed_videos (main joined_world' half_line).2).1
           = Returned ids
           /\ py "v2" ∈ ids)
  /\ (api_get_transcript twice_world (py "v5") = Returned [py "text"]
      /\ model_generate_content twice_world
           (final_prompt (join (py " ") [py "text"]) (py "T1"))
         = Raised (ServiceError (py "quota exceeded"))
      /\ (py "v5" ∉ store_ids (processed_videos_file first_run))
      /\ sound_store (processed_videos_file first_run) = true
      /\ Forall (fun e => clean_id (entry_id e) = true)
                (feed_entries twice_world CHANNELS)
      /\ (main twice_world first_run).1 = Returned tt
      /\ summarize_error (ServiceError (py "quota exceeded"))
         ∈ stdout (main twice_world first_run).2
      /\ processed_videos_file (main twice_world first_run).2
         = File true true (py "v5" ++ [LF])
      /\ exists ids,
           (get_processed_videos (main twice_world first_run).2).1
           = Returned ids
           /\ py "v5" ∈ ids).
Proof.
  split; [|split].
  - split; [reflexivity|]. split; [vm_compute; reflexivity|].
    split; [apply not_elem_of_empty|].
    split; [vm_compute; reflexivity|]. split; [vm_compute; reflexivity|].
    exists (ids_of_text (py "b " ++ [LF])).
    split; [vm_compute; reflexivity|].
    unfold ids_of_text. apply elem_of_list_to_set.
    vm_compute. constructor.
  - split; [reflexivity|]. split; [vm_compute; reflexivity|].
    split.
    { simpl. unfold ids_of_text. rewrite elem_of_list_to_set.
      intros H. apply list_elem_of_In in H. vm_compute in H.
      destruct H as [H|[]]. discriminate H. }
    split; [vm_compute; reflexivity|]. split; [vm_compute; reflexivity|].
    exists (ids_of_text (py "v2" ++ [LF])).
    split; [vm_compute; reflexivity|].
    unfold ids_of_text. apply elem_of_list_to_set.
    vm_compute. constructor.
  - split; [reflexivity|]. split; [vm_compute; reflexivity|].
    split; [apply not_elem_of_empty|]. split; [reflexivity|].
    split; [refine (bool_decide_unpack _ _); vm_compute; exact I|].
    split; [vm_compute; reflexivity|].
    split.
    { apply list_elem_of_In. vm_compute. right. right. left. reflexivity. }
    split; [vm_compute; reflexivity|].
    exists (ids_of_text (py "v5" ++ [LF])).
    split; [vm_compute; reflexivity|].
    unfold ids_of_text. apply elem_of_list_to_set.
    vm_compute. constructor.
Qed.

(** C7, as the code has it.  When the model refuses the summary of a
    video, [summarize_text] prints the error and returns [None], and the
    step of the loop for that entry returns with the disk and the in-memory
    set as they were.  When the summary of every feed entry with the
    identifier is refused, the run appends no record of the identifier: the
    state file changes by the records of other identifiers alone, but for
    the empty file that a record refused by the encoder has created.  If
    moreover the identifier was not in the store before the run, every
    identifier of the feeds is free of white space at its ends and of line
    breaks, and the state file is missing, empty or ends in a line feed,
    the identifier is not in the store after the run. *)
Theorem summary_failure_leaves_video_unrecorded
    (w : world) (s : state) (r : outcome unit) (s' : state) (v : str) :
  main w s = (r, s') ->
  (forall transcript title x s0,
     model_generate_content w (final_prompt transcript title) = Raised x ->
     summarize_text w transcript title s0
     = (Returned None,
        State (processed_videos_file s0) (summaries s0)
              (stdout s0 ++ [summarize_error x])
              (trace s0 ++ [EvGenerate (final_prompt transcript title)])))
  /\ (forall P e s0 items x,
        entry_id e = v -> v ∉ P ->
        api_get_transcript w v = Returned items ->
        model_generate_content w
          (final_prompt (join (py " ") items) (entry_title e)) = Raised x ->
        process_entry w P e s0
        = (Returned P,
           State (processed_videos_file s0) (summaries s0)
                 (stdout s0 ++ [summarize_error x])
                 (trace s0
                  ++ [EvTranscript v;
                      EvGenerate
                        (final_prompt (join (py " ") items) (entry_title e))])))
  /\ ((forall e, e ∈ feed_entries w CHANNELS -> entry_id e = v ->
         exists items x,
           api_get_transcript w v = Returned items
           /\ model_generate_content w
                (final_prompt (join (py " ") items) (entry_title e))
              = Raised x) ->
      exists t,
        trace s' = trace s ++ t
        /\ (EvRecord v ∉ t)
        /\ (exists n',
              append_records (processed_videos_file s) (records_of t)
              = Returned n'
              /\ store_after n' r (processed_videos_file s'))
        /\ (v ∉ store_ids (processed_videos_file s) ->
            sound_store (processed_videos_file s) = true ->
            (forall e, e ∈ feed_entries w CHANNELS ->
                       clean_id (entry_id e) = true) ->
            (v ∉ store_ids (processed_videos_file s'))
            /\ forall ids s'',
                 get_processed_videos s' = (Returned ids, s'') -> v ∉ ids)).
Proof.
  intros Hrun.
  split.
  { intros transcript title x s0 Hx.
    rewrite summarize_text_eq. simpl. by rewrite Hx. }
  split.
  { intros P e s0 items x <- HP Htr Hx. rewrite process_entry_eq. simpl.
    rewrite decide_False by done. rewrite Htr, Hx.
    by rewrite <- app_assoc. }
  intros Hfail.
  apply (main_on_unrecorded w CHANNELS s r s' v Hrun).
  intros e He Hv. destruct (Hfail e He Hv) as (items & x & Htr & Hx).
  unfold summary_of. rewrite Hv, Htr. by rewrite Hx.
Qed.

Lemma summary_failure_leaves_video_unrecorded_witness :
  py "v4" ∉ store_ids (processed_videos_file (main demo_world one_record).2).
Proof.
  destruct (summary_failure_leaves_video_unrecorded demo_world one_record
              (main demo_world one_record).1 (main demo_world one_record).2
              (py "v4"))
    as (_ & _ & Hrun).
  { vm_compute. reflexivity. }
  destruct Hrun as (t & _ & _ & _ & H).
  - intros e He Hv.
    exists [py "hello"; py "world"], (ServiceError (py "quota exceeded")).
    split; [reflexivity|].
    assert (Hfeed : feed_entries demo_world CHANNELS = demo_feed)
      by (vm_compute; reflexivity).
    rewrite Hfeed in He. unfold demo_feed in He.
    repeat (apply elem_of_cons in He as [->|He]);
      try (by apply elem_of_nil in He);
      try (simpl in Hv; discriminate Hv).
    vm_compute. reflexivity.
  - apply H.
    + refine (bool_decide_unpack _ _). vm_compute. exact I.
    + reflexivity.
    + apply Forall_forall. refine (bool_decide_unpack _ _).
      vm_compute. exact I.
Defined.

(** C2 as stated fails, in three ways.  With the feed unchanged, a video
    whose transcript could not be fetched in the first run is summarized
    and recorded by the second run when the service answers again.  An
    identifier that begins with a space is recorded by the first run, is
    not in the set loaded by the second, and is summarized and recorded
    once more.  And on a state file whose text is the letter v with no
    line feed, the first run records 2, which the second run reads back as
    v2, so that it records 2 again. *)
Lemma second_run_counterexample :
  (feedparser_parse world_up = feedparser_parse world_down
   /\ (main world_down first_run).1 = Returned tt
   /\ processed_videos_file (main world_down first_run).2 = Missing true
   /\ (main world_up (main world_down first_run).2).1 = Returned tt
   /\ processed_videos_file (main world_up (main world_down first_run).2).2
      = File true true (py "v2" ++ [LF])
   /\ summary_files (summaries (main world_up (main world_down first_run).2).2)
        !! py "Update" = Some (py "summary")
   /\ summary_files (summaries (main world_down first_run).2)
        !! py "Update" = None)
  /\ ((main spaced_world first_run).1 = Returned tt
      /\ processed_videos_file (main spaced_world first_run).2
         = File true true (py " v1" ++ [LF])
      /\ (main spaced_world (main spaced_world first_run).2).1 = Returned tt
      /\ processed_videos_file
           (main spaced_world (main spaced_world first_run).2).2
         = File true true (py " v1" ++ [LF] ++ py " v1" ++ [LF]))
  /\ ((main joined_world half_line).1 = Returned tt
      /\ processed_videos_file (main joined_world half_line).2
         = File true true (py "v2" ++ [LF])
      /\ (main joined_world (main joined_world half_line).2).1 = Returned tt
      /\ processed_videos_file
           (main joined_world (main joined_world half_line).2).2
         = File true true (py "v2" ++ [LF] ++ py "2" ++ [LF])).
Proof.
  split; [|split].
  - split; [reflexivity|].
    split; [vm_compute; reflexivity|]. split; [vm_compute; reflexivity|].
    split; [vm_compute; reflexivity|]. split; [vm_compute; reflexivity|].
    split; vm_compute; reflexivity.
  - split; [vm_compute; reflexivity|]. split; [vm_compute; reflexivity|].
    split; vm_compute; reflexivity.
  - split; [vm_compute; reflexivity|]. split; [vm_compute; reflexivity|].
    split; vm_compute; reflexivity.
Qed.

(** C2, as the code has it.  After a run, however it ended, a second run
    with the same feed and the same answers of the services ends in the
    same way, leaves the state file and the summaries as they were,
    appends no record, requests no transcript for an identifier in the
    store, and, when the runs complete, writes no summary; every
    identifier the first run recorded is in the store the second run
    loads.  This holds when every identifier of the feeds is free of white
    space at its ends and of line breaks, and the state file was missing,
    empty or ended in a line feed. *)
Theorem second_run_changes_nothing
    (w : world) (s : state) (r : outcome unit) (s1 : state) :
  main w s = (r, s1) ->
  sound_store (processed_videos_file s) = true ->
  (forall e, e ∈ feed_entries w CHANNELS -> clean_id (entry_id e) = true) ->
  exists s2 t1 t2,
    main w s1 = (r, s2)
    /\ processed_videos_file s2 = processed_videos_file s1
    /\ summaries s2 = summaries s1
    /\ trace s1 = trace s ++ t1
    /\ trace s2 = trace s1 ++ t2
    /\ records_of t2 = []
    /\ (r = Returned tt -> Forall (fun ev => quiet ev = true) t2)
    /\ (forall v, EvRecord v ∈ t1 ->
                  v ∈ store_ids (processed_videos_file s1))
    /\ (forall v, v ∈ store_ids (processed_videos_file s1) ->
                  EvTranscript v ∉ t2)
    /\ (forall ids s3, get_processed_videos s1 = (Returned ids, s3) ->
                       ids = store_ids (processed_videos_file s1)).
Proof.
  intros Hrun Hsound Hclean.
  destruct (main_on_again w CHANNELS s r s1 Hclean Hsound Hrun)
    as (s2 & t2 & Hrun2 & Hf & Hs & Ht2 & Hr2 & Hq & Hv).
  destruct (main_on_store w CHANNELS s r s1 Hrun Hsound Hclean)
    as (r0 & t1 & Heff & Hids & _).
  exists s2, t1, t2.
  split; [exact Hrun2|]. split; [exact Hf|]. split; [exact Hs|].
  split; [apply (eff_trace _ _ _ _ _ _ _ _ Heff)|].
  split; [exact Ht2|]. split; [exact Hr2|]. split; [exact Hq|].
  split.
  { intros v Hv1%elem_of_records_of.
    rewrite Hids, elem_of_union, elem_of_list_to_set. by left. }
  split.
  { intros v Hin Hev. by apply (Hv v Hev). }
  intros ids s3. apply get_processed_videos_ids.
Qed.

Lemma second_run_changes_nothing_witness :
  exists s2 t1 t2,
    main demo_world (main demo_world one_record).2 = (Returned tt, s2)
    /\ processed_videos_file s2
       = processed_videos_file (main demo_world one_record).2
    /\ summaries s2 = summaries (main demo_world one_record).2
    /\ trace (main demo_world one_record).2 = trace one_record ++ t1
    /\ trace s2 = trace (main demo_world one_record).2 ++ t2
    /\ records_of t2 = [].
Proof.
  destruct (second_run_changes_nothing demo_world one_record (Returned tt)
              (main demo_world one_record).2)
    as (s2 & t1 & t2 & H1 & H2 & H3 & H4 & H5 & H6 & _).
  - vm_compute. reflexivity.
  - reflexivity.
  - apply Forall_forall. refine (bool_decide_unpack _ _).
    vm_compute. exact I.
  - exists s2, t1, t2.
    exact (conj H1 (conj H2 (conj H3 (conj H4 (conj H5 H6))))).
Defined.

(** * Further properties of the functions of [main.py] *)

(** ** More about [sanitize_filename] *)

Lemma sanitize_filename_app (a b : str) :
  sanitize_filename (a ++ b) = sanitize_filename a ++ sanitize_filename b.
Proof. rewrite !sanitize_filename_filter. apply filter_app. Qed.

Lemma sanitize_filename_clean (name : str) :
  Forall (fun c => forbidden c = false) (sanitize_filename name).
Proof.
  unfold sanitize_filename.
  induction name as [|c r IH]; simpl; [constructor|].
  destruct (forbidden c) eqn:E; [exact IH|]. by constructor.
Qed.

Lemma sanitize_filename_fixed (name : str) :
  Forall (fun c => forbidden c = false) name -> sanitize_filename name = name.
Proof.
  unfold sanitize_filename.
  induction 1 as [|c r Hc _ IH]; simpl; [reflexivity|].
  rewrite Hc. by rewrite IH.
Qed.

(** X1.  Sanitizing twice is sanitizing once, and the result is never
    longer than the name. *)
Theorem sanitize_filename_idempotent (name : str) :
  sanitize_filename (sanitize_filename name) = sanitize_filename name
  /\ (length (sanitize_filename name) <= length name)%nat.
Proof.
  split.
  - apply sanitize_filename_fixed, sanitize_filename_clean.
  - rewrite sanitize_filename_filter. apply length_filter.
Qed.

(** X2.  The sanitized name of a title made of two parts is the sanitized
    first part followed by the sanitized second part, and a character that
    is not forbidden stays between them where it was. *)
Theorem sanitize_filename_concat (a b : str) :
  sanitize_filename (a ++ b) = sanitize_filename a ++ sanitize_filename b
  /\ (forall c, forbidden c = false ->
        sanitize_filename (a ++ c :: b)
        = sanitize_filename a ++ c :: sanitize_filename b).
Proof.
  split; [apply sanitize_filename_app|].
  intros c Hc. rewrite sanitize_filename_app. f_equal.
  unfold sanitize_filename. simpl. by rewrite Hc.
Qed.

(** X3.  Titles that differ only by forbidden characters get the same
    name: a forbidden character put anywhere in a title changes nothing.
    The name is empty exactly when every character of the title is
    forbidden. *)
Theorem sanitize_filename_collides (a b : str) (c : N) :
  forbidden c = true ->
  sanitize_filename (a ++ c :: b) = sanitize_filename (a ++ b)
  /\ a ++ c :: b <> a ++ b
  /\ (forall name : str,
        sanitize_filename name = []
        <-> Forall (fun x => forbidden x = true) name).
Proof.
  intros Hc. split.
  { rewrite !sanitize_filename_app. f_equal.
    unfold sanitize_filename. simpl. by rewrite Hc. }
  split.
  { intros H. apply (f_equal length) in H.
    rewrite !length_app in H. simpl in H. lia. }
  intros name. unfold sanitize_filename. split.
  - induction name as [|x r IH]; simpl; [constructor|].
    destruct (forbidden x) eqn:E; [|discriminate].
    intros H. constructor; [exact E|by apply IH].
  - induction 1 as [|x r Hx _ IH]; simpl; [reflexivity|].
    by rewrite Hx.
Qed.

Lemma sanitize_filename_collides_witness :
  sanitize_filename (py "Q&A" ++ 63 :: py " live")
  = sanitize_filename (py "Q&A" ++ py " live").
Proof.
  apply (sanitize_filename_collides (py "Q&A") (py " live") 63).
  reflexivity.
Defined.

(** ** More about stripping and lines *)

Section MoreText.

Implicit Types (s c l v : str) (x y : N).

Lemma lstrip_spaces l :
  Forall (fun x => isspace x = true) l -> lstrip l = [].
Proof. induction 1 as [|x l Hx _ IH]; simpl; [done|]. by rewrite Hx. Qed.

Lemma lstrip_snoc l x :
  lstrip (l ++ [x])
  = if forallb isspace l then lstrip [x] else lstrip l ++ [x].
Proof.
  induction l as [|y l IH]; [reflexivity|].
  simpl. destruct (isspace y); [exact IH|reflexivity].
Qed.

Lemma rstrip_snoc_space l x : isspace x = true -> rstrip (l ++ [x]) = rstrip l.
Proof.
  intros Hx. unfold rstrip. rewrite reverse_snoc. simpl. by rewrite Hx.
Qed.

Lemma strip_snoc_space l x : isspace x = true -> strip (l ++ [x]) = strip l.
Proof.
  intros Hx. unfold strip. rewrite lstrip_snoc.
  destruct (forallb isspace l) eqn:E.
  - simpl. rewrite Hx. rewrite lstrip_spaces; [reflexivity|].
    apply Forall_forall. intros y Hy. rewrite forallb_forall in E.
    apply E. by apply list_elem_of_In.
  - by apply rstrip_snoc_space.
Qed.

Lemma strip_spaces l : Forall (fun x => isspace x = true) l -> strip l = [].
Proof. intros H. unfold strip. by rewrite lstrip_spaces. Qed.

Lemma strip_sub l y : y ∈ strip l -> y ∈ l.
Proof.
  unfold strip. intros Hy.
  destruct (rstrip_prefix (lstrip l)) as [k Hk].
  destruct (lstrip_suffix l) as [k' Hk'].
  rewrite Hk', Hk. set_solver.
Qed.

Lemma translate_newlines_no_CR s :
  (CR ∉ translate_newlines s) /\ forall x, CR ∉ translate_newlines (x :: s).
Proof.
  induction s as [|y s [IH1 IH2]].
  - split; [apply not_elem_of_nil|]. intros x. simpl.
    destruct (x =? CR) eqn:E.
    + intros [= ]%list_elem_of_singleton.
    + apply N.eqb_neq in E. intros H%list_elem_of_singleton. congruence.
  - split; [apply IH2|]. intros x. rewrite translate_newlines_two.
    destruct (x =? CR) eqn:E.
    + destruct (y =? LF).
      * intros [H|H]%elem_of_cons; [discriminate|done].
      * intros [H|H]%elem_of_cons; [discriminate|by apply (IH2 y)].
    + apply N.eqb_neq in E.
      intros [H|H]%elem_of_cons; [done|by apply (IH2 y)].
Qed.

(** Every line ends at its first line feed, if it has one. *)
Lemma readlines_shape s l :
  l ∈ readlines s ->
  (exists l', l = l' ++ [LF] /\ (LF ∉ l') /\ l' ⊆ s) \/ ((LF ∉ l) /\ l ⊆ s).
Proof.
  revert l. induction s as [|x s IH]; intros l; simpl.
  - by intros ?%elem_of_nil.
  - destruct (x =? LF) eqn:E.
    + intros [->|Hl]%elem_of_cons.
      * left. exists []. split; [done|]. split; [apply not_elem_of_nil|].
        set_solver.
      * destruct (IH l Hl) as [(l' & -> & Hn & Hs)|[Hn Hs]].
        -- left. exists l'. split; [done|]. split; [done|]. set_solver.
        -- right. split; [done|]. set_solver.
    + apply N.eqb_neq in E.
      destruct (readlines s) as [|l0 ls] eqn:Er.
      * intros ->%list_elem_of_singleton. right. split; [|set_solver].
        intros H%list_elem_of_singleton. congruence.
      * intros [->|Hl]%elem_of_cons.
        -- destruct (IH l0) as [(l' & -> & Hn & Hs)|[Hn Hs]]; [by left|..].
           ++ left. exists (x :: l'). split; [done|].
              split; [|set_solver].
              intros [H|H]%elem_of_cons; [by symmetry in H|done].
           ++ right. split; [|set_solver].
              intros [H|H]%elem_of_cons; [by symmetry in H|done].
        -- destruct (IH l) as [(l' & -> & Hn & Hs)|[Hn Hs]]; [by right|..].
           ++ left. exists l'. split; [done|]. split; [done|]. set_solver.
           ++ right. split; [done|]. set_solver.
Qed.

Lemma readlines_one v :
  v <> [] -> Forall (fun x => x <> LF) v -> readlines v = [v].
Proof.
  intros Hne H. induction H as [|x v Hx Hv IH]; [done|].
  simpl. apply N.eqb_neq in Hx. rewrite Hx.
  destruct v as [|y v]; [reflexivity|]. by rewrite IH.
Qed.

(** No identifier read from a text has a line break inside. *)
Lemma ids_of_text_no_break c v :
  v ∈ ids_of_text c -> (LF ∉ v) /\ (CR ∉ v).
Proof.
  unfold ids_of_text, stripped_lines.
  rewrite elem_of_list_to_set, list_elem_of_fmap.
  intros (l & -> & Hl). unfold file_lines in Hl.
  assert (Hcr : CR ∉ l).
  { destruct (readlines_shape _ _ Hl) as [(l' & -> & _ & Hs)|[_ Hs]].
    - intros [H|H]%elem_of_app.
      + by apply (proj1 (translate_newlines_no_CR c)), Hs.
      + by apply list_elem_of_singleton in H.
    - intros H. by apply (proj1 (translate_newlines_no_CR c)), Hs. }
  split.
  - destruct (readlines_shape _ _ Hl) as [(l' & -> & Hn & _)|[Hn _]].
    + rewrite strip_snoc_space by done. intros H. by apply Hn, strip_sub.
    + intros H. by apply Hn, strip_sub.
  - intros H. by apply Hcr, strip_sub.
Qed.

End MoreText.

(** ** More about [get_processed_videos] *)

Lemma clean_id_intro (v : str) :
  strip v = v -> LF ∉ v -> CR ∉ v -> clean_id v = true.
Proof.
  intros Hs Hl Hc. unfold clean_id. apply andb_true_iff. split.
  - by apply bool_decide_eq_true.
  - apply forallb_forall. intros x Hx%list_elem_of_In.
    apply andb_true_iff. split; apply negb_true_iff, N.eqb_neq; congruence.
Qed.

Lemma ids_of_text_crlf (v : str) :
  clean_id v = true -> ids_of_text (v ++ [CR; LF]) = {[v]}.
Proof.
  intros [Hs Hv]%clean_id_inv. unfold ids_of_text, stripped_lines, file_lines.
  rewrite translate_newlines_plain
    by (eapply Forall_impl; [exact Hv|]; by intros x []).
  change (translate_newlines [CR; LF]) with [LF].
  rewrite readlines_plain
    by (eapply Forall_impl; [exact Hv|]; by intros x []).
  simpl. fold (record_line v). rewrite strip_record by done.
  apply (right_id_L ∅ (∪)).
Qed.

Lemma ids_of_text_last_line (v : str) :
  clean_id v = true -> v <> [] -> ids_of_text v = {[v]}.
Proof.
  intros [Hs Hv]%clean_id_inv Hne.
  unfold ids_of_text, stripped_lines, file_lines.
  rewrite <- (app_nil_r v) at 1.
  rewrite translate_newlines_plain
    by (eapply Forall_impl; [exact Hv|]; by intros x []).
  simpl. rewrite app_nil_r.
  rewrite readlines_one;
    [|done|eapply Forall_impl; [exact Hv|]; by intros x []].
  simpl. rewrite Hs. apply (right_id_L ∅ (∪)).
Qed.

(** X4.  [get_processed_videos] only reads: the state file, the summaries
    and the output are as before, and a second call gives the same
    result (the same set, or the same error). *)
Theorem get_processed_videos_only_reads (s : state) :
  exists r s' s'',
    get_processed_videos s = (r, s')
    /\ processed_videos_file s' = processed_videos_file s
    /\ summaries s' = summaries s
    /\ stdout s' = stdout s
    /\ trace s' = trace s ++ [EvLoad]
    /\ get_processed_videos s' = (r, s'').
Proof.
  rewrite get_processed_videos_eq. simpl.
  destruct (read_ids (processed_videos_file s)) eqn:E.
  all: eexists _, _, _; split; [reflexivity|]; simpl.
  all: repeat (split; [done|]).
  all: rewrite get_processed_videos_eq; simpl; by rewrite E.
Qed.

(** X5.  Every identifier that [get_processed_videos] returns is one that
    a line of the state file holds as it is: it has no white space at its
    ends and no line feed or carriage return inside. *)
Theorem get_processed_videos_ids_are_clean
    (s : state) (ids : gset str) (s' : state) (v : str) :
  get_processed_videos s = (Returned ids, s') ->
  v ∈ ids ->
  clean_id v = true /\ (LF ∉ v) /\ (CR ∉ v).
Proof.
  intros Hrun Hv. apply get_processed_videos_ids in Hrun. subst ids.
  destruct (processed_videos_file s) as [| |r w c|r w err]; simpl in Hv;
    try by apply not_elem_of_empty in Hv.
  destruct (ids_of_text_no_break c v Hv) as [Hl Hc].
  split; [|done]. apply clean_id_intro; [|done..].
  unfold ids_of_text, stripped_lines in Hv.
  apply elem_of_list_to_set, list_elem_of_fmap in Hv as (l & -> & _).
  apply strip_idemp.
Qed.

Lemma get_processed_videos_ids_are_clean_witness :
  clean_id (py "v1") = true /\ (LF ∉ py "v1") /\ (CR ∉ py "v1").
Proof.
  apply (get_processed_videos_ids_are_clean
           (State (File true true (py " v1" ++ [CR; LF])) (Dir ∅) [] [])
           {[py "v1"]}
           (State (File true true (py " v1" ++ [CR; LF])) (Dir ∅) [] [EvLoad])).
  - vm_compute. reflexivity.
  - by apply elem_of_singleton.
Defined.

(** X6.  An empty state file gives the empty set.  A line of white space
    alone, and so a blank line, adds the empty identifier to the set and
    nothing else. *)
Theorem get_processed_videos_blank_line
    (w : bool) (c l : str) (sm : dir_node) (out : list str)
    (tr : list event) :
  terminated c = true ->
  Forall (fun x => isspace x = true /\ x <> LF /\ x <> CR) l ->
  get_processed_videos (State (File true w []) sm out tr)
  = (Returned ∅, State (File true w []) sm out (tr ++ [EvLoad]))
  /\ get_processed_videos (State (File true w (c ++ l ++ [LF])) sm out tr)
     = (Returned ({[ [] ]} ∪ ids_of_text c),
        State (File true w (c ++ l ++ [LF])) sm out (tr ++ [EvLoad]))
  /\ get_processed_videos (State (File true w c) sm out tr)
     = (Returned (ids_of_text c),
        State (File true w c) sm out (tr ++ [EvLoad])).
Proof.
  intros Hc Hl. split; [reflexivity|]. split; [|reflexivity].
  rewrite get_processed_videos_eq. simpl. f_equal. f_equal.
  rewrite ids_of_text_app by done.
  unfold ids_of_text at 2. unfold stripped_lines.
  fold (record_line l). rewrite file_lines_record
    by (eapply Forall_impl; [exact Hl|]; by intros x (_ & ? & ?)).
  simpl. unfold record_line. rewrite strip_snoc_space by done.
  rewrite strip_spaces
    by (eapply Forall_impl; [exact Hl|]; by intros x (? & _)).
  rewrite (right_id_L ∅ (∪)). apply (comm_L (∪)).
Qed.

Lemma get_processed_videos_blank_line_witness :
  get_processed_videos
    (State (File true true (py "v1" ++ [LF] ++ [32; 9] ++ [LF])) (Dir ∅) [] [])
  = (Returned ({[ [] ]} ∪ ids_of_text (py "v1" ++ [LF])),
     State (File true true (py "v1" ++ [LF] ++ [32; 9] ++ [LF])) (Dir ∅) []
           [EvLoad]).
Proof.
  refine (proj1 (proj2 (get_processed_videos_blank_line true
            (py "v1" ++ [LF]) [32; 9] (Dir ∅) [] [] _ _))).
  - reflexivity.
  - repeat constructor; discriminate.
Defined.

(** X7.  A last line without its line feed is read like the others: when
    the text before it is empty or ends in a line feed, a clean, non-empty
    identifier at the end of the file is in the set. *)
Theorem get_processed_videos_last_line
    (w : bool) (c v : str) (sm : dir_node) (out : list str)
    (tr : list event) :
  terminated c = true ->
  clean_id v = true ->
  v <> [] ->
  get_processed_videos (State (File true w (c ++ v)) sm out tr)
  = (Returned ({[v]} ∪ ids_of_text c),
     State (File true w (c ++ v)) sm out (tr ++ [EvLoad])).
Proof.
  intros Hc Hv Hne. rewrite get_processed_videos_eq. simpl. f_equal. f_equal.
  rewrite ids_of_text_app by done.
  rewrite (ids_of_text_last_line v) by done. apply (comm_L (∪)).
Qed.

Lemma get_processed_videos_last_line_witness :
  get_processed_videos
    (State (File true true (py "v1" ++ [LF] ++ py "v2")) (Dir ∅) [] [])
  = (Returned ({[py "v2"]} ∪ ids_of_text (py "v1" ++ [LF])),
     State (File true true (py "v1" ++ [LF] ++ py "v2")) (Dir ∅) [] [EvLoad]).
Proof.
  refine (get_processed_videos_last_line true (py "v1" ++ [LF]) (py "v2")
            (Dir ∅) [] [] _ _ _).
  - reflexivity.
  - reflexivity.
  - discriminate.
Defined.

(** X8.  The line ends of the state file do not matter: a file that holds
    clean identifiers, each followed by a line feed or by a carriage
    return and a line feed, loads as exactly the set of these
    identifiers. *)
Theorem get_processed_videos_line_endings
    (w : bool) (lines : list (str * bool)) (sm : dir_node)
    (out : list str) (tr : list event) :
  Forall (fun p : str * bool => clean_id p.1 = true) lines ->
  let text :=
    concat ((fun p : str * bool =>
               p.1 ++ (if p.2 then [CR; LF] else [LF])) <$> lines) in
  get_processed_videos (State (File true w text) sm out tr)
  = (Returned (list_to_set (fst <$> lines)),
     State (File true w text) sm out (tr ++ [EvLoad])).
Proof.
  intros Hl text. rewrite get_processed_videos_eq. simpl. f_equal. f_equal.
  subst text. induction Hl as [|[v crlf] lines Hv _ IH]; [reflexivity|].
  simpl in *. rewrite ids_of_text_app.
  - f_equal; [|exact IH]. destruct crlf.
    + by apply ids_of_text_crlf.
    + by apply ids_of_text_record.
  - destruct crlf.
    + change [CR; LF] with ([CR] ++ [LF]). rewrite app_assoc.
      apply terminated_snoc.
    + apply terminated_snoc.
Qed.

Lemma get_processed_videos_line_endings_witness :
  get_processed_videos
    (State (File true true (py "v1" ++ [CR; LF] ++ py "v2" ++ [LF])) (Dir ∅) [] [])
  = (Returned (list_to_set [py "v1"; py "v2"]),
     State (File true true (py "v1" ++ [CR; LF] ++ py "v2" ++ [LF])) (Dir ∅) []
           [EvLoad]).
Proof.
  refine (get_processed_videos_line_endings true
            [(py "v1", true); (py "v2", false)] (Dir ∅) [] [] _).
  repeat constructor.
Defined.

(** ** More about [save_processed_video] *)

Section MoreStore.

Implicit Types (n : node) (v : str) (s : state).

Lemma append_text_record_sound n v n' :
  readable_store n = true \/ sound_store n = true ->
  append_text n (record_line v) = Returned n' ->
  sound_store n' = true
  /\ (readable_store n = true -> readable_store n' = true).
Proof.
  intros Hn. unfold append_text, write_end.
  destruct n as [[]| |r [] c|r [] err]; simpl; try done.
  all: try by destruct Hn.
  all: destruct (encode_error _); [done|]; intros [= <-]; simpl.
  - split; [apply (terminated_record [])|done].
  - split; [apply terminated_record|done].
Qed.

Lemma append_text_record_ids n v n' :
  sound_store n = true ->
  append_text n (record_line v) = Returned n' ->
  store_ids n' = store_ids n ∪ ids_of_text (record_line v).
Proof.
  intros Hn. unfold append_text, write_end.
  destruct n as [[]| |r [] c|r [] err]; simpl; try done.
  all: destruct (encode_error _); [done|]; intros [= <-]; simpl.
  - by rewrite (left_id_L ∅ (∪)).
  - by apply ids_of_text_app.
Qed.

Lemma append_records_ids_any n ids n' :
  sound_store n = true ->
  append_records n ids = Returned n' ->
  forall x,
    x ∈ store_ids n'
    <-> x ∈ store_ids n
        \/ exists v, v ∈ ids /\ x ∈ ids_of_text (record_line v).
Proof.
  revert n. induction ids as [|v ids IH]; intros n Hn; simpl.
  - intros [= <-] x. split; [by left|]. intros [H|(v & Hv & _)]; [done|].
    by apply elem_of_nil in Hv.
  - destruct (append_text n (record_line v)) as [n1|] eqn:E; [|done].
    intros H x.
    rewrite (IH n1 (proj1 (append_text_record_sound _ _ _ (or_intror Hn) E))
               H x).
    rewrite (append_text_record_ids _ _ _ Hn E), elem_of_union.
    split.
    + intros [[Hx|Hx]|(u & Hu & Hx)]; [by left|right..].
      * exists v. split; [by left|done].
      * exists u. split; [by right|done].
    + intros [Hx|(u & [->|Hu]%elem_of_cons & Hx)].
      * by left; left.
      * by left; right.
      * right. by exists u.
Qed.

Lemma ids_of_text_record_strip v :
  Forall (fun x => x <> LF /\ x <> CR) v ->
  ids_of_text (record_line v) = {[strip v]}.
Proof.
  intros Hv. unfold ids_of_text, stripped_lines.
  rewrite file_lines_record by done. simpl.
  unfold record_line. rewrite strip_snoc_space by done.
  apply (right_id_L ∅ (∪)).
Qed.

End MoreStore.

(** X9.  [save_processed_video] returns exactly when the state file can
    be opened for append and the identifier can be encoded.  When it
    raises, nothing is printed, the summaries are untouched, no text has
    gone to the file, and the file is as it was but for one case: an
    identifier that cannot be encoded leaves an empty file where there was
    none.  The error is [IsADirectoryError] on a directory,
    [PermissionError] on a file that cannot be written or made, both with
    the name of the file, and [UnicodeEncodeError] otherwise. *)
Theorem save_processed_video_failure (v : str) (s : state) :
  ((exists s', save_processed_video v s = (Returned tt, s'))
   <-> (exists n1, open_append (processed_videos_file s) = Returned n1)
       /\ encodable v = true)
  /\ (forall e s',
        save_processed_video v s = (Raised e, s') ->
        summaries s' = summaries s /\ stdout s' = stdout s
        /\ trace s' = trace s
        /\ store_ids (processed_videos_file s')
           = store_ids (processed_videos_file s)
        /\ store_after (processed_videos_file s) (Raised e : outcome unit)
             (processed_videos_file s')
        /\ match processed_videos_file s with
           | Directory => e = is_a_directory PROCESSED_VIDEOS_FILE
           | Missing false | File _ false _ | Garbled _ false _ =>
               e = permission_denied PROCESSED_VIDEOS_FILE
           | Missing true | File _ true _ | Garbled _ true _ =>
               encodable v = false
               /\ encode_error (record_line v) = Some e
               /\ exists msg, e = UnicodeEncodeError msg
           end).
Proof.
  rewrite save_processed_video_eq. split.
  - unfold append_text, write_end. split.
    + intros [s' H]. destruct (open_append _) as [n1|]; [|discriminate].
      split; [by eexists|]. destruct (encodable v) eqn:Hv; [done|].
      destruct (encode_error_unencodable v [LF] Hv) as [e He].
      unfold record_line in H. rewrite He in H. discriminate.
    + intros [[n1 ->] Hv]. rewrite (encode_error_record v Hv). by eexists.
  - intros e s'.
    destruct (append_text _ _) as [|e'] eqn:E; [discriminate|].
    intros [= <- <-]. simpl. split; [done|]. split; [done|]. split; [done|].
    split; [apply touched_ids|].
    split; [by apply touched_inv with (t := record_line v)|].
    unfold append_text, write_end in E.
    destruct (processed_videos_file s) as [[]| |r [] c|r [] err];
      simpl in E; try by injection E as <-.
    all: destruct (encode_error (record_line v)) as [e0|] eqn:He;
      [|discriminate]; injection E as ->.
    all: split; [|split; [done|by apply encode_error_kind in He]].
    all: destruct (encodable v) eqn:Hv; [|done].
    all: by rewrite (encode_error_record v Hv) in He.
Qed.

Lemma save_processed_video_failure_witness :
  summaries (State (File true true []) (NoDir true) [] [])
  = summaries first_run
  /\ store_after (processed_videos_file first_run)
       (Raised (UnicodeEncodeError
                  (py "'utf-8' codec can't encode character '"
                   ++ [92] ++ py "udc80' in position 0: surrogates not allowed"))
        : outcome unit)
       (File true true []).
Proof.
  destruct (proj2 (save_processed_video_failure [56448] first_run)
              (UnicodeEncodeError
                 (py "'utf-8' codec can't encode character '"
                  ++ [92] ++ py "udc80' in position 0: surrogates not allowed"))
              (State (File true true []) (NoDir true) [] []))
    as (H1 & _ & _ & _ & H2 & _).
  - vm_compute. reflexivity.
  - exact (conj H1 H2).
Defined.

(** X10.  After one successful [save_processed_video] the state file ends
    in a line feed, whatever it held before, and the summaries and the
    output are untouched.  So only the first record after a file that was
    left unterminated can be damaged: a clean identifier saved after any
    other save is in the set loaded afterwards. *)
Theorem save_processed_video_terminates_file
    (u v : str) (s s1 s2 : state) :
  save_processed_video u s = (Returned tt, s1) ->
  save_processed_video v s1 = (Returned tt, s2) ->
  clean_id v = true ->
  readable_store (processed_videos_file s) = true ->
  sound_store (processed_videos_file s1) = true
  /\ summaries s1 = summaries s
  /\ stdout s1 = stdout s
  /\ exists ids s3,
       get_processed_videos s2 = (Returned ids, s3) /\ v ∈ ids.
Proof.
  intros H1 H2 Hv Hr.
  rewrite save_processed_video_eq in H1.
  destruct (append_text (processed_videos_file s) _) as [n1|] eqn:E1;
    [|discriminate].
  injection H1 as <-. simpl in *.
  destruct (append_text_record_sound _ _ _ (or_introl Hr) E1) as [Hs1 Hr1].
  split; [exact Hs1|]. split; [done|]. split; [done|].
  rewrite save_processed_video_eq in H2. simpl in H2.
  destruct (append_text n1 _) as [n2|] eqn:E2; [|discriminate].
  injection H2 as <-.
  destruct (append_text_ids n1 v n2 Hs1 Hv E2) as (Hids & _ & Hr2).
  rewrite get_processed_videos_eq. simpl.
  specialize (Hr2 (Hr1 Hr)).
  exists (store_ids n2). eexists.
  split; [by rewrite (read_ids_readable _ Hr2)|].
  rewrite Hids. set_solver.
Qed.

Lemma save_processed_video_terminates_file_witness :
  exists ids s3,
    get_processed_videos
      (State (File true true (py "v1" ++ py "v2" ++ [LF] ++ py "v3" ++ [LF]))
             (Dir ∅) [] [EvRecord (py "v2"); EvRecord (py "v3")])
    = (Returned ids, s3)
    /\ py "v3" ∈ ids.
Proof.
  refine (proj2 (proj2 (proj2
    (save_processed_video_terminates_file (py "v2") (py "v3")
       unterminated_record
       (State (File true true (py "v1" ++ py "v2" ++ [LF])) (Dir ∅) []
              [EvRecord (py "v2")])
       _ _ _ _ _)))).
  all: reflexivity.
Defined.

(** X11.  On a state file that is missing, empty or ends in a line feed,
    [save_processed_video] never makes an identifier disappear from the
    loaded set, whatever is saved: the set after the call is the set
    before it together with the stripped lines of the text written. *)
Theorem save_processed_video_keeps_ids (v : str) (s s' : state) :
  sound_store (processed_videos_file s) = true ->
  save_processed_video v s = (Returned tt, s') ->
  store_ids (processed_videos_file s')
  = store_ids (processed_videos_file s) ∪ ids_of_text (v ++ [LF])
  /\ store_ids (processed_videos_file s)
     ⊆ store_ids (processed_videos_file s').
Proof.
  intros Hs H. rewrite save_processed_video_eq in H.
  destruct (append_text _ _) as [n1|] eqn:E; [|discriminate].
  injection H as <-. simpl.
  pose proof (append_text_record_ids _ _ _ Hs E) as Hids.
  split; [exact Hids|]. rewrite Hids. set_solver.
Qed.

Lemma save_processed_video_keeps_ids_witness :
  store_ids (File true true (py "v1" ++ [LF]))
  ⊆ store_ids (File true true (py "v1" ++ [LF] ++ py " a b " ++ [LF])).
Proof.
  refine (proj2 (save_processed_video_keeps_ids (py " a b ") one_record
            (State (File true true (py "v1" ++ [LF] ++ py " a b " ++ [LF]))
                   (Dir ∅) [] [EvRecord (py " a b ")]) _ _)).
  all: reflexivity.
Defined.

(** X12.  What is loaded after saving an identifier is the identifier
    stripped: on a readable state file that is missing, empty or ends in a
    line feed, after [save_processed_video v] for a [v] without line
    break, [get_processed_videos] returns the former set with [strip v]
    added. *)
Theorem save_then_load_strips (v : str) (s s1 : state) :
  Forall (fun x => x <> LF /\ x <> CR) v ->
  sound_store (processed_videos_file s) = true ->
  readable_store (processed_videos_file s) = true ->
  save_processed_video v s = (Returned tt, s1) ->
  get_processed_videos s1
  = (Returned ({[strip v]} ∪ store_ids (processed_videos_file s)),
     State (processed_videos_file s1) (summaries s1) (stdout s1)
           (trace s1 ++ [EvLoad])).
Proof.
  intros Hv Hs Hr H. rewrite save_processed_video_eq in H.
  destruct (append_text _ _) as [n1|] eqn:E; [|discriminate].
  injection H as <-. simpl.
  pose proof (append_text_record_ids _ _ _ Hs E) as Hids.
  destruct (append_text_record_sound _ _ _ (or_introl Hr) E) as [_ Hr1].
  specialize (Hr1 Hr).
  rewrite get_processed_videos_eq. simpl.
  rewrite ids_of_text_record_strip in Hids by done.
  rewrite (comm_L (∪)) in Hids. rewrite <- Hids.
  by rewrite (read_ids_readable _ Hr1).
Qed.

Lemma save_then_load_strips_witness :
  get_processed_videos
    (State (File true true (py "v1" ++ [LF] ++ py " v2 " ++ [LF])) (Dir ∅) []
           [EvRecord (py " v2 ")])
  = (Returned ({[strip (py " v2 ")]}
               ∪ store_ids (processed_videos_file one_record)),
     State (File true true (py "v1" ++ [LF] ++ py " v2 " ++ [LF])) (Dir ∅) []
           [EvRecord (py " v2 "); EvLoad]).
Proof.
  refine (save_then_load_strips (py " v2 ") one_record
            (State (File true true (py "v1" ++ [LF] ++ py " v2 " ++ [LF]))
                   (Dir ∅) [] [EvRecord (py " v2 ")]) _ _ _ _).
  - repeat constructor; discriminate.
  - reflexivity.
  - reflexivity.
  - reflexivity.
Defined.

(** X13.  For the loaded set neither the order of the saves nor their
    repetition matters: two series of [save_processed_video] of the same
    identifiers, from the same state file (missing, empty or ending in a
    line feed), leave files with the same set of identifiers. *)
Theorem save_order_is_irrelevant
    (ids1 ids2 : list str) (s s1 s2 : state) :
  sound_store (processed_videos_file s) = true ->
  (forall v, v ∈ ids1 <-> v ∈ ids2) ->
  record_all ids1 s = (Returned tt, s1) ->
  record_all ids2 s = (Returned tt, s2) ->
  store_ids (processed_videos_file s1) = store_ids (processed_videos_file s2).
Proof.
  intros Hs Hsame H1 H2.
  apply record_all_store in H1, H2.
  apply set_eq. intros x.
  rewrite (append_records_ids_any _ _ _ Hs H1 x).
  rewrite (append_records_ids_any _ _ _ Hs H2 x).
  split; (intros [Hx|(v & Hv & Hx)]; [by left|right]);
    exists v; split; [by apply Hsame|done|by apply Hsame|done].
Qed.

Lemma save_order_is_irrelevant_witness :
  store_ids (File true true (py "a" ++ [LF] ++ py "b" ++ [LF] ++ py "a" ++ [LF]))
  = store_ids (File true true (py "b" ++ [LF] ++ py "a" ++ [LF])).
Proof.
  refine (save_order_is_irrelevant [py "a"; py "b"; py "a"] [py "b"; py "a"]
            first_run
            (State (File true true
                      (py "a" ++ [LF] ++ py "b" ++ [LF] ++ py "a" ++ [LF]))
                   (NoDir true) [] [EvRecord (py "a"); EvRecord (py "b");
                         EvRecord (py "a")])
            (State (File true true (py "b" ++ [LF] ++ py "a" ++ [LF]))
                   (NoDir true) [] [EvRecord (py "b"); EvRecord (py "a")])
            _ _ _ _).
  - reflexivity.
  - intros v. rewrite !elem_of_cons. rewrite elem_of_nil. tauto.
  - reflexivity.
  - reflexivity.
Defined.

(** X18.  The store invents nothing: after a series of
    [save_processed_video] of clean identifiers on a readable state file
    that is missing, empty or ends in a line feed, [get_processed_videos]
    returns exactly the former set together with the identifiers saved. *)
Theorem saves_then_load_exact (ids : list str) (s s' : state) :
  Forall (fun v => clean_id v = true) ids ->
  sound_store (processed_videos_file s) = true ->
  readable_store (processed_videos_file s) = true ->
  record_all ids s = (Returned tt, s') ->
  get_processed_videos s'
  = (Returned (list_to_set ids ∪ store_ids (processed_videos_file s)),
     State (processed_videos_file s') (summaries s') (stdout s')
           (trace s' ++ [EvLoad])).
Proof.
  intros Hids Hs Hr H. apply record_all_store in H.
  destruct (append_records_ids _ _ _ Hs Hids H) as (Heq & _ & Hr').
  specialize (Hr' Hr). rewrite get_processed_videos_eq. simpl.
  rewrite <- Heq. by rewrite (read_ids_readable _ Hr').
Qed.

Lemma saves_then_load_exact_witness :
  get_processed_videos
    (State (File true true (py "v1" ++ [LF] ++ py "v2" ++ [LF])) (NoDir true) []
           [EvRecord (py "v1"); EvRecord (py "v2")])
  = (Returned (list_to_set [py "v1"; py "v2"]
               ∪ store_ids (processed_videos_file first_run)),
     State (File true true (py "v1" ++ [LF] ++ py "v2" ++ [LF])) (NoDir true) []
           [EvRecord (py "v1"); EvRecord (py "v2"); EvLoad]).
Proof.
  refine (saves_then_load_exact [py "v1"; py "v2"] first_run
            (State (File true true (py "v1" ++ [LF] ++ py "v2" ++ [LF])) (NoDir true) []
                   [EvRecord (py "v1"); EvRecord (py "v2")]) _ _ _ _).
  - repeat constructor.
  - reflexivity.
  - reflexivity.
  - reflexivity.
Defined.

(** ** More about the service wrappers *)

Lemma join_app (sep : str) (a b : list str) :
  a <> [] -> b <> [] ->
  join sep (a ++ b) = join sep a ++ sep ++ join sep b.
Proof.
  intros Ha Hb. induction a as [|x a IH]; [done|].
  destruct a as [|y a].
  - simpl. by destruct b.
  - change (x ++ sep ++ join sep ((y :: a) ++ b)
            = (x ++ sep ++ join sep (y :: a)) ++ sep ++ join sep b).
    rewrite IH by done. by rewrite <- !app_assoc.
Qed.



(** X16.  The text of a transcript keeps the items in their order with
    one separator between neighbours: the transcript of two runs of items
    is the transcript of the first, a space, and the transcript of the
    second. *)
Theorem get_transcript_joins_in_order
    (w : world) (v : str) (s : state) (a b : list str) :
  a <> [] -> b <> [] ->
  api_get_transcript w v = Returned (a ++ b) ->
  exists s',
    get_transcript w v s
    = (Returned (Some (join (py " ") a ++ py " " ++ join (py " ") b)), s').
Proof.
  intros Ha Hb Hv. rewrite get_transcript_eq, Hv.
  eexists. by rewrite join_app.
Qed.

Lemma get_transcript_joins_in_order_witness :
  exists s',
    get_transcript demo_world (py "v2") first_run
    = (Returned (Some (join (py " ") [py "hello"] ++ py " "
                       ++ join (py " ") [py "world"])), s').
Proof.
  refine (get_transcript_joins_in_order demo_world (py "v2") first_run
            [py "hello"] [py "world"] _ _ _).
  - discriminate.
  - discriminate.
  - reflexivity.
Defined.

(** X17.  The prompt keeps the transcript and the title apart from the
    fixed text: for one title, two transcripts with the same prompt are the
    same transcript, and for one transcript, two titles with the same
    prompt are the same title. *)
Theorem final_prompt_injective (t1 t2 u : str) :
  (final_prompt t1 u = final_prompt t2 u -> t1 = t2)
  /\ (final_prompt u t1 = final_prompt u t2 -> t1 = t2).
Proof.
  unfold final_prompt. split; intros H.
  - apply app_inv_head in H. apply app_inv_head in H.
    apply app_inv_head in H. by apply app_inv_tail in H.
  - apply app_inv_head in H. by apply app_inv_tail in H.
Qed.

Lemma final_prompt_injective_witness : py "text" = py "text".
Proof.
  apply (proj1 (final_prompt_injective (py "text") (py "text") (py "T"))).
  reflexivity.
Defined.

(** ** More about [main] *)

Section MoreMain.

Variable w : world.



End MoreMain.

(** X19.  A state file that cannot be read, for want of the permission or
    because its bytes do not decode, stops [main] before the first
    channel: the start line is printed and nothing else, an error is
    raised, no feed is fetched and the state file is as it was.  The
    summaries directory comes first.  When it is there or can be made, it
    is there afterwards and the error is that of the read, after the one
    load.  When its path is taken or it cannot be made, the error is that
    of [mkdir], and the state file has not been opened. *)
Theorem main_stops_on_unreadable_state_file (w : world) (s : state) :
  readable_store (processed_videos_file s) = false ->
  exists e s',
    main w s = (Raised e, s')
    /\ processed_videos_file s' = processed_videos_file s
    /\ stdout s' = stdout s ++ [py "Starting process..."]
    /\ match make_dir (summaries s) with
       | Returned d =>
           read_ids (processed_videos_file s) = Raised e
           /\ summaries s' = d /\ is_dir d = true
           /\ trace s' = trace s ++ [EvLoad]
       | Raised e' =>
           e = e' /\ summaries s' = summaries s /\ trace s' = trace s
       end.
Proof.
  intros Hr. unfold main. rewrite main_on_eq. simpl.
  destruct (read_ids_unreadable _ Hr) as [e He]. rewrite He.
  destruct (make_dir (summaries s)) as [d|e'] eqn:Ed.
  - exists e. eexists. split; [reflexivity|]. simpl.
    split; [done|]. split; [done|]. split; [done|]. split; [done|].
    split; [exact (make_dir_inv _ _ Ed)|done].
  - exists e'. eexists. split; [reflexivity|]. done.
Qed.

Lemma main_stops_on_unreadable_state_file_witness :
  exists e s',
    main demo_world
      (State (File false true (py "v1" ++ [LF])) (NoDir true) [] [])
    = (Raised e, s')
    /\ processed_videos_file s' = File false true (py "v1" ++ [LF])
    /\ stdout s' = [py "Starting process..."]
    /\ e = permission_denied PROCESSED_VIDEOS_FILE
    /\ summaries s' = Dir ∅
    /\ trace s' = [EvLoad].
Proof.
  destruct (main_stops_on_unreadable_state_file demo_world
              (State (File false true (py "v1" ++ [LF])) (NoDir true) [] []))
    as (e & s' & H1 & H2 & H3 & H4 & H5 & _ & H6).
  - reflexivity.
  - exists e, s'. injection H4 as <-.
    exact (conj H1 (conj H2 (conj H3 (conj eq_refl (conj H5 H6))))).
Defined.


